(** * Beacon: brain-wallet identity over a first-write-wins registry

    A shallow embedding of [src/lib/crypto.ts], [src/lib/registry.ts],
    [src/lib/identity.ts] and [src/hooks/useIdentity.ts], followed by the
    properties of the design document that concern them.

    Conventions of the embedding:
    - a JavaScript [string] that comes from the user (username, password) is
      the sequence of its UTF-16 code units; texts produced by an encoder
      (hex, base64) and error messages are [string]s;
    - a [Uint8Array] is a [list byte];
    - an [async] function is a computation over the [World]: it either
      returns a value or throws (a rejected promise), and threads the world
      through; [await]s run in program order;
    - the libraries the code imports (hash-wasm, @libp2p/crypto,
      uint8arrays) are the fields of the class [Platform]; every general
      statement holds for any implementation of them;
    - the world keeps a record of the calls made to the store, the random
      source and the derivation, so that a statement can say which calls a
      run has made; no result depends on it. *)

From Stdlib Require Import ZArith NArith Strings.String Strings.Ascii Strings.Byte List.
From stdpp Require Import base gmap strings list.
Import ListNotations.

Local Open Scope string_scope.
Local Open Scope list_scope.

(** ** Values *)

(** A JavaScript string value: its UTF-16 code units. *)
Abbreviation jsstring := (list N).

(** The code units of an ASCII literal. *)
Definition js (s : string) : jsstring :=
  map N_of_ascii (list_ascii_of_string s).

(** The byte with the given value (taken modulo 256). *)
Definition byte_of_N (n : N) : byte :=
  match Byte.of_N (n mod 256) with
  | Some b => b
  | None => "000"%byte
  end.

(** [types/identity.ts]: [interface KeyPair]. *)
Module KeyPair.
Record t : Type := mk
  { publicKey : list byte
  ; privateKey : list byte }.
End KeyPair.

(** [types/identity.ts]: [interface RegistryEntry]. *)
Module RegistryEntry.
Record t : Type := mk
  { publicKey : string          (* hex-encoded public key *)
  ; salt : string               (* base64-encoded salt *)
  ; profileCid : option string
  ; createdAt : Z }.            (* Unix timestamp, milliseconds *)
End RegistryEntry.

(** [types/identity.ts]: [type Result<T, E>]. *)
Inductive Result (T E : Type) : Type :=
| Ok (value : T)
| Err (error : E).
Arguments Ok {T E} value.
Arguments Err {T E} error.

(** [lib/identity.ts]: [interface IdentityState]. *)
Record IdentityState : Type := mkIdentityState
  { username : jsstring
  ; keyPair : KeyPair.t
  ; publicKeyHex : string }.

(** ** The external libraries *)

(** The four numeric options of hash-wasm's [argon2id]. *)
Record Argon2Config : Type := mkArgon2Config
  { parallelism : N
  ; iterations : N
  ; memorySize : N
  ; hashLength : N }.

(** The options object handed to [argon2id]: password, salt, the spread
    configuration; [outputType] is always ['hex']. *)
Record Argon2Options : Type := mkArgon2Options
  { opt_password : list byte
  ; opt_salt : list byte
  ; opt_config : Argon2Config }.

(** What [generateKeyPairFromSeed('Ed25519', seed)] resolves to: a private
    key object with its [raw] bytes and the [raw] bytes of its public key. *)
Record Ed25519PrivateKey : Type := mkEd25519PrivateKey
  { raw : list byte
  ; publicKey_raw : list byte }.

(** The outcome of running a function: it returns, or it throws an [Error]
    with a message. *)
Inductive outcome (A : Type) : Type :=
| Returned (a : A)
| Thrown (message : string).
Arguments Returned {A} a.
Arguments Thrown {A} message.

(** The imported library functions.  They are pure: which value they return
    (or which error they throw) depends on their arguments only. *)
Class Platform : Type :=
  { argon2id : Argon2Options -> outcome string
  ; generateKeyPairFromSeed : list byte -> outcome Ed25519PrivateKey
  ; toString_base16 : list byte -> string
  ; toString_base64 : list byte -> string
  ; fromString_base16 : string -> outcome (list byte)
  ; fromString_base64 : string -> outcome (list byte) }.

(** ** [new TextEncoder().encode]: UTF-8 of a JavaScript string *)

Definition is_high_surrogate (c : N) : bool := (0xD800 <=? c)%N && (c <=? 0xDBFF)%N.
Definition is_low_surrogate (c : N) : bool := (0xDC00 <=? c)%N && (c <=? 0xDFFF)%N.

Definition utf8_of_code_point (cp : N) : list byte :=
  if (cp <? 0x80)%N then
    [byte_of_N cp]
  else if (cp <? 0x800)%N then
    [ byte_of_N (N.lor 0xC0 (N.shiftr cp 6))
    ; byte_of_N (N.lor 0x80 (N.land cp 0x3F)) ]
  else if (cp <? 0x10000)%N then
    [ byte_of_N (N.lor 0xE0 (N.shiftr cp 12))
    ; byte_of_N (N.lor 0x80 (N.land (N.shiftr cp 6) 0x3F))
    ; byte_of_N (N.lor 0x80 (N.land cp 0x3F)) ]
  else
    [ byte_of_N (N.lor 0xF0 (N.shiftr cp 18))
    ; byte_of_N (N.lor 0x80 (N.land (N.shiftr cp 12) 0x3F))
    ; byte_of_N (N.lor 0x80 (N.land (N.shiftr cp 6) 0x3F))
    ; byte_of_N (N.lor 0x80 (N.land cp 0x3F)) ].

(** A surrogate pair is one code point; a surrogate with no partner is
    replaced by U+FFFD, as the conversion to a scalar-value string does. *)
Fixpoint TextEncoder_encode (s : jsstring) : list byte :=
  match s with
  | [] => []
  | c :: tl =>
    if is_high_surrogate c then
      match tl with
      | d :: rest =>
        if is_low_surrogate d then
          utf8_of_code_point (0x10000 + N.shiftl (c - 0xD800) 10 + (d - 0xDC00))
            ++ TextEncoder_encode rest
        else utf8_of_code_point 0xFFFD ++ TextEncoder_encode tl
      | [] => utf8_of_code_point 0xFFFD
      end
    else if is_low_surrogate c then
      utf8_of_code_point 0xFFFD ++ TextEncoder_encode tl
    else utf8_of_code_point c ++ TextEncoder_encode tl
  end.

(** ** The world the code runs in *)

(** The calls the code makes to its collaborators, in program order. *)
Inductive Event : Type :=
| EvDbGet (key : jsstring)
| EvDbPut (key : jsstring) (value : RegistryEntry.t)
| EvGetRandomValues (n : nat)
| EvDeriveKeyPair (_username password : jsstring) (salt : string)
| EvArgon2id (options : Argon2Options).

Record World : Type := mkWorld
  { (* [Registry.db]: [None] is [null], before [init] or after [stop];
       otherwise the contents of the key-value store *)
    db : option (gmap jsstring RegistryEntry.t)
  ; (* the bytes [crypto.getRandomValues] will deliver, and how many were taken *)
    entropy : nat -> byte
  ; entropy_used : nat
  ; (* what [Date.now()] returns *)
    clock : Z
  ; (* the state cell of [useIdentity] *)
    identity : option IdentityState
  ; (* the collaborator calls made so far *)
    calls : list Event }.

Definition set_db (d : option (gmap jsstring RegistryEntry.t)) (w : World) : World :=
  mkWorld d (entropy w) (entropy_used w) (clock w) (identity w) (calls w).
Definition set_entropy_used (n : nat) (w : World) : World :=
  mkWorld (db w) (entropy w) n (clock w) (identity w) (calls w).
Definition set_identity (i : option IdentityState) (w : World) : World :=
  mkWorld (db w) (entropy w) (entropy_used w) (clock w) i (calls w).
Definition record_call (e : Event) (w : World) : World :=
  mkWorld (db w) (entropy w) (entropy_used w) (clock w) (identity w) (calls w ++ [e]).

(** ** Computations *)

Definition M (A : Type) : Type := World -> outcome A * World.

Definition ret {A} (a : A) : M A := fun w => (Returned a, w).
Definition throw {A} (message : string) : M A := fun w => (Thrown message, w).
Definition bind {A B} (m : M A) (k : A -> M B) : M B :=
  fun w =>
    match m w with
    | (Returned a, w') => k a w'
    | (Thrown e, w') => (Thrown e, w')
    end.
(** Running a computation: its outcome, and the world it leaves. *)
Definition outcome_of {A} (m : M A) (w : World) : outcome A := fst (m w).
Definition world_after {A} (m : M A) (w : World) : World := snd (m w).
(** The result of a library function: its value, or its error rethrown. *)
Definition lift {A} (o : outcome A) : M A := fun w => (o, w).
Definition get_world : M World := fun w => (Returned w, w).
Definition modify (f : World -> World) : M unit := fun w => (Returned tt, f w).
Definition emit (e : Event) : M unit := modify (record_call e).

Notation "'let!' x ':=' m 'in' k" := (bind m (fun x => k))
  (at level 10, x pattern, m at level 100, k at level 200).
Notation "m ';;' k" := (bind m (fun _ => k))
  (at level 100, k at level 200, right associativity).

(** [crypto.getRandomValues(new Uint8Array(n))]. *)
Definition getRandomValues (n : nat) : M (list byte) :=
  emit (EvGetRandomValues n) ;;
  let! w := get_world in
  modify (set_entropy_used (entropy_used w + n)) ;;
  ret (map (entropy w) (seq (entropy_used w) n)).

(** [Date.now()]. *)
Definition Date_now : M Z := fun w => (Returned (clock w), w).

(** ** [lib/crypto.ts] *)

Module Crypto.
Section WithPlatform.
Context `{pf : Platform}.

Definition ARGON2_CONFIG : Argon2Config :=
  {| parallelism := 1
   ; iterations := 2
   ; memorySize := 4096
   ; hashLength := 32 |}.

(** [generateEd25519FromSeed]. *)
Definition generateEd25519FromSeed (seed : list byte) : M KeyPair.t :=
  let! privateKey := lift (generateKeyPairFromSeed seed) in
  ret {| KeyPair.publicKey := publicKey_raw privateKey
       ; KeyPair.privateKey := raw privateKey |}.

(** [deriveKeyPair]: password + salt -> Argon2id hash -> Ed25519 seed ->
    key pair.  The first argument is not used. *)
Definition deriveKeyPair (_username password : jsstring) (salt : string)
  : M KeyPair.t :=
  emit (EvDeriveKeyPair _username password salt) ;;
  let! saltBytes := lift (fromString_base64 salt) in
  let passwordBytes := TextEncoder_encode password in
  let options :=
    {| opt_password := passwordBytes
     ; opt_salt := saltBytes
     ; opt_config := ARGON2_CONFIG |} in
  emit (EvArgon2id options) ;;
  let! hashHex := lift (argon2id options) in
  let! seed := lift (fromString_base16 hashHex) in
  let! keyPair := generateEd25519FromSeed seed in
  ret keyPair.

(** [generateSalt]. *)
Definition generateSalt : M string :=
  let! bytes := getRandomValues 16 in
  ret (toString_base64 bytes).

(** [toHex]. *)
Definition toHex (bytes : list byte) : string := toString_base16 bytes.

End WithPlatform.
End Crypto.

(** ** [lib/registry.ts] *)

Module Registry.

Definition not_initialized : string := "Registry not initialized".

(** [Registry.lookup]. *)
Definition lookup (username : jsstring) : M (option RegistryEntry.t) :=
  let! w := get_world in
  match db w with
  | None => throw not_initialized
  | Some store =>
    emit (EvDbGet username) ;;
    let entry := store !! username in
    ret entry
  end.

(** [Registry.register]: first write wins; [false] when the username
    already exists. *)
Definition register (username : jsstring) (entry : RegistryEntry.t) : M bool :=
  let! w := get_world in
  match db w with
  | None => throw not_initialized
  | Some store =>
    emit (EvDbGet username) ;;
    match store !! username with
    | Some existing => ret false
    | None =>
      emit (EvDbPut username entry) ;;
      modify (set_db (Some (<[username := entry]> store))) ;;
      ret true
    end
  end.

(** [Registry.all]. *)
Definition all : M (list (jsstring * RegistryEntry.t)) :=
  let! w := get_world in
  match db w with
  | None => throw not_initialized
  | Some store => ret (map_to_list store)
  end.

End Registry.

(** ** [lib/identity.ts] *)

Module Identity.

Definition username_taken : string := "Username already taken".
Definition claim_rejected : string :=
  "Failed to register (username may have been claimed)".
Definition username_not_found : string := "Username not found".
Definition invalid_password : string := "Invalid password".

Section WithPlatform.
Context `{pf : Platform}.

(** [register]. *)
Definition register (username password : jsstring)
    (lookupFn : jsstring -> M (option RegistryEntry.t))
    (writeFn : jsstring -> RegistryEntry.t -> M bool)
  : M (Result IdentityState string) :=
  let! existing := lookupFn username in
  match existing with
  | Some _ => ret (Err username_taken)
  | None =>
    let! salt := Crypto.generateSalt in
    let! keyPair := Crypto.deriveKeyPair username password salt in
    let publicKeyHex := Crypto.toHex (KeyPair.publicKey keyPair) in
    let! now := Date_now in
    let entry :=
      {| RegistryEntry.publicKey := publicKeyHex
       ; RegistryEntry.salt := salt
       ; RegistryEntry.profileCid := None
       ; RegistryEntry.createdAt := now |} in
    let! success := writeFn username entry in
    if negb success then ret (Err claim_rejected)
    else
      ret (Ok {| username := username
               ; keyPair := keyPair
               ; publicKeyHex := publicKeyHex |})
  end.

(** [login]. *)
Definition login (username password : jsstring)
    (lookupFn : jsstring -> M (option RegistryEntry.t))
  : M (Result IdentityState string) :=
  let! entry := lookupFn username in
  match entry with
  | None => ret (Err username_not_found)
  | Some entry =>
    let! keyPair :=
      Crypto.deriveKeyPair username password (RegistryEntry.salt entry) in
    let publicKeyHex := Crypto.toHex (KeyPair.publicKey keyPair) in
    if negb (String.eqb publicKeyHex (RegistryEntry.publicKey entry)) then
      ret (Err invalid_password)
    else
      ret (Ok {| username := username
               ; keyPair := keyPair
               ; publicKeyHex := publicKeyHex |})
  end.

End WithPlatform.
End Identity.

(** ** [hooks/useIdentity.ts] *)

Module UseIdentity.
Section WithPlatform.
Context `{pf : Platform}.

Definition setIdentity (i : option IdentityState) : M unit :=
  modify (set_identity i).

(** The [login] callback of the hook. *)
Definition login (username password : jsstring) : M (Result unit string) :=
  let! result := Identity.login username password (fun u => Registry.lookup u) in
  match result with
  | Ok value => setIdentity (Some value) ;; ret (Ok tt)
  | Err error => ret (Err error)
  end.

(** The [register] callback of the hook. *)
Definition register (username password : jsstring) : M (Result unit string) :=
  let! result :=
    Identity.register username password
      (fun u => Registry.lookup u) (fun u e => Registry.register u e) in
  match result with
  | Ok value => setIdentity (Some value) ;; ret (Ok tt)
  | Err error => ret (Err error)
  end.

(** The [logout] callback of the hook. *)
Definition logout : M unit := setIdentity None.

(** [isAuthenticated] as the hook returns it. *)
Definition isAuthenticated (w : World) : bool :=
  match identity w with Some _ => true | None => false end.

End WithPlatform.
End UseIdentity.

(** ** An executable stand-in for the external libraries

    Used only to run the embedding on concrete inputs.  The two codecs are
    the real ones (lowercase hexadecimal, unpadded base64); the hash and the
    key generation are small deterministic functions with the input checks
    of the libraries they stand for (a password of at least one byte, a salt
    of at least eight, a seed of thirty-two). *)

Module StandIn.

Definition hex_alphabet : string := "0123456789abcdef".
Definition base64_alphabet : string :=
  "ABCDEFGHIJKLMNOPQRSTUVWXYZabcdefghijklmnopqrstuvwxyz0123456789+/".

Definition digit_char (alphabet : string) (v : N) : ascii :=
  match String.get (N.to_nat v) alphabet with
  | Some c => c
  | None => "?"%char
  end.

Fixpoint digit_value_from (alphabet : string) (c : ascii) (i : N) : option N :=
  match alphabet with
  | EmptyString => None
  | String a rest =>
    if Ascii.eqb a c then Some i else digit_value_from rest c (i + 1)%N
  end.
Definition digit_value (alphabet : string) (c : ascii) : option N :=
  digit_value_from alphabet c 0%N.

Fixpoint digit_values (alphabet : string) (s : string) : option (list N) :=
  match s with
  | EmptyString => Some []
  | String c rest =>
    match digit_value alphabet c, digit_values alphabet rest with
    | Some v, Some vs => Some (v :: vs)
    | _, _ => None
    end
  end.

Definition hex_encode (bytes : list byte) : string :=
  string_of_list_ascii
    (flat_map (fun b => let n := Byte.to_N b in
                 [digit_char hex_alphabet (N.shiftr n 4);
                  digit_char hex_alphabet (N.land n 15)]) bytes).

Fixpoint hex_pairs (vs : list N) : outcome (list byte) :=
  match vs with
  | [] => Returned []
  | [_] => Thrown "Unexpected end of data"
  | hi :: lo :: rest =>
    match hex_pairs rest with
    | Returned bytes => Returned (byte_of_N (N.lor (N.shiftl hi 4) lo) :: bytes)
    | Thrown e => Thrown e
    end
  end.

Definition hex_decode (s : string) : outcome (list byte) :=
  match digit_values hex_alphabet s with
  | Some vs => hex_pairs vs
  | None => Thrown "Non-base16 character"
  end.

Fixpoint base64_sextets (bytes : list N) : list N :=
  match bytes with
  | [] => []
  | [a] => [N.shiftr a 2; N.shiftl (N.land a 3) 4]
  | [a; b] =>
    [ N.shiftr a 2
    ; N.lor (N.shiftl (N.land a 3) 4) (N.shiftr b 4)
    ; N.shiftl (N.land b 15) 2 ]
  | a :: b :: c :: rest =>
    [ N.shiftr a 2
    ; N.lor (N.shiftl (N.land a 3) 4) (N.shiftr b 4)
    ; N.lor (N.shiftl (N.land b 15) 2) (N.shiftr c 6)
    ; N.land c 63 ] ++ base64_sextets rest
  end.

Definition base64_encode (bytes : list byte) : string :=
  string_of_list_ascii
    (map (digit_char base64_alphabet) (base64_sextets (map Byte.to_N bytes))).

Fixpoint base64_octets (vs : list N) : outcome (list byte) :=
  match vs with
  | [] => Returned []
  | [_] => Thrown "Unexpected end of data"
  | [p; q] =>
    if (N.land q 15 =? 0)%N
    then Returned [byte_of_N (N.lor (N.shiftl p 2) (N.shiftr q 4))]
    else Thrown "Unexpected end of data"
  | [p; q; r] =>
    if (N.land r 3 =? 0)%N
    then Returned [ byte_of_N (N.lor (N.shiftl p 2) (N.shiftr q 4))
                  ; byte_of_N (N.lor (N.shiftl (N.land q 15) 4) (N.shiftr r 2)) ]
    else Thrown "Unexpected end of data"
  | p :: q :: r :: s :: rest =>
    match base64_octets rest with
    | Returned bytes =>
      Returned (byte_of_N (N.lor (N.shiftl p 2) (N.shiftr q 4))
                :: byte_of_N (N.lor (N.shiftl (N.land q 15) 4) (N.shiftr r 2))
                :: byte_of_N (N.lor (N.shiftl (N.land r 3) 6) s)
                :: bytes)
    | Thrown e => Thrown e
    end
  end.

Definition base64_decode (s : string) : outcome (list byte) :=
  match digit_values base64_alphabet s with
  | Some vs => base64_octets vs
  | None => Thrown "Non-base64 character"
  end.

(** A polynomial checksum of the input, one output byte per index. *)
Definition mix (data : list byte) (i : N) : N :=
  fold_left (fun acc b => ((acc * 33 + Byte.to_N b) mod 65521)%N) data (i + 5381)%N.

Definition hash (options : Argon2Options) : outcome string :=
  if (length (opt_password options) <? 1)%nat then
    Thrown "Password must be specified"
  else if (length (opt_salt options) <? 8)%nat then
    Thrown "Salt should be at least 8 bytes long"
  else
    let cfg := opt_config options in
    let data :=
      opt_password options ++ ["255"%byte] ++ opt_salt options
        ++ map byte_of_N [parallelism cfg; iterations cfg; memorySize cfg] in
    Returned
      (hex_encode
         (map (fun i => byte_of_N (mix data (N.of_nat i)))
              (seq 0 (N.to_nat (hashLength cfg))))).

Definition keygen (seed : list byte) : outcome Ed25519PrivateKey :=
  if (length seed =? 32)%nat then
    let pub := map (fun b => byte_of_N (Byte.to_N b * 7 + 1)) (rev seed) in
    Returned {| raw := seed ++ pub; publicKey_raw := pub |}
  else Thrown "Seed must be 32 bytes".

Definition platform : Platform :=
  {| argon2id := hash
   ; generateKeyPairFromSeed := keygen
   ; toString_base16 := hex_encode
   ; toString_base64 := base64_encode
   ; fromString_base16 := hex_decode
   ; fromString_base64 := base64_decode |}.

(** A running node with an empty registry. *)
Definition fresh : World :=
  {| db := Some ∅
   ; entropy := fun i => byte_of_N (N.of_nat (17 * i + 3))
   ; entropy_used := 0
   ; clock := 1700000000000
   ; identity := None
   ; calls := [] |}.

(** The same node before [Registry.init] has run. *)
Definition uninitialized : World := set_db None fresh.

End StandIn.


(** ** Vocabulary of the statements *)

(** A computation leaves a component of the world as it found it. *)
Definition preserves {A X} (proj : World -> X) (m : M A) : Prop :=
  forall w, proj (world_after m w) = proj w.

(** The calls that belong to a key derivation. *)
Definition is_derivation (e : Event) : bool :=
  match e with
  | EvDeriveKeyPair _ _ _ | EvArgon2id _ => true
  | _ => false
  end.

(** Every hash in a list of calls was asked for with the fixed parameters. *)
Definition uses_fixed_config (e : Event) : Prop :=
  match e with
  | EvArgon2id options => opt_config options = Crypto.ARGON2_CONFIG
  | _ => True
  end.

(** The calls one run of [deriveKeyPair] makes. *)
Definition derive_calls `{pf : Platform}
    (_username password : jsstring) (salt : string) : list Event :=
  EvDeriveKeyPair _username password salt ::
  match fromString_base64 salt with
  | Returned saltBytes =>
    [EvArgon2id {| opt_password := TextEncoder_encode password
                 ; opt_salt := saltBytes
                 ; opt_config := Crypto.ARGON2_CONFIG |}]
  | Thrown _ => []
  end.

(** The verdict of [login] once the entry is at hand: what it does with the
    outcome of the derivation. *)
Definition verdict `{pf : Platform} (username : jsstring)
    (entry : RegistryEntry.t) (derived : outcome KeyPair.t)
  : outcome (Result IdentityState string) :=
  match derived with
  | Thrown e => Thrown e
  | Returned keyPair =>
    let publicKeyHex := Crypto.toHex (KeyPair.publicKey keyPair) in
    if String.eqb publicKeyHex (RegistryEntry.publicKey entry) then
      Returned (Ok {| username := username
                    ; keyPair := keyPair
                    ; publicKeyHex := publicKeyHex |})
    else Returned (Err Identity.invalid_password)
  end.

(** The salt [generateSalt] produces in a world, and the world it leaves. *)
Definition next_salt_bytes (w : World) : list byte :=
  map (entropy w) (seq (entropy_used w) 16).
Definition next_salt `{pf : Platform} (w : World) : string :=
  toString_base64 (next_salt_bytes w).
Definition after_salt (w : World) : World :=
  set_entropy_used (entropy_used w + 16) (record_call (EvGetRandomValues 16) w).

(** The entry [register] proposes, and the identity it returns. *)
Definition entry_of `{pf : Platform}
    (keyPair : KeyPair.t) (salt : string) (now : Z) : RegistryEntry.t :=
  {| RegistryEntry.publicKey := Crypto.toHex (KeyPair.publicKey keyPair)
   ; RegistryEntry.salt := salt
   ; RegistryEntry.profileCid := None
   ; RegistryEntry.createdAt := now |}.
Definition identity_of `{pf : Platform}
    (username : jsstring) (keyPair : KeyPair.t) : IdentityState :=
  {| username := username
   ; keyPair := keyPair
   ; publicKeyHex := Crypto.toHex (KeyPair.publicKey keyPair) |}.

(** ** Concrete scenarios, on the stand-in libraries *)

Module Scenario.
Import StandIn.

(** The protocol as [useIdentity] wires it, on the stand-in libraries. *)
Definition register_ (u p : jsstring) : M (Result IdentityState string) :=
  @Identity.register platform u p Registry.lookup Registry.register.
Definition login_ (u p : jsstring) : M (Result IdentityState string) :=
  @Identity.login platform u p Registry.lookup.

Definition alice : jsstring := js "alice".
Definition hunter2 : jsstring := js "hunter2".

(** The node after [alice] has registered with the password [hunter2]. *)
Definition registered : World := world_after (register_ alice hunter2) fresh.

(** The entry a concurrent writer puts under a name, and a lookup that
    loses the race to it: the read sees the store before the rival's write
    lands. *)
Definition rival_entry : RegistryEntry.t :=
  {| RegistryEntry.publicKey := "00ff"
   ; RegistryEntry.salt := "AAECAwQFBgcICQoLDA0ODw"
   ; RegistryEntry.profileCid := None
   ; RegistryEntry.createdAt := 1699999999999 |}.
Definition lookup_then_rival (u : jsstring) : M (option RegistryEntry.t) :=
  let! seen := Registry.lookup u in
  Registry.register u rival_entry ;;
  ret seen.

(** Two passwords that differ, each a single unpaired surrogate. *)
Definition lone_high : jsstring := [0xD800%N].
Definition lone_low : jsstring := [0xDC00%N].

(** The identity [register_ alice hunter2] returns on the fresh node. *)
Definition alice_identity : IdentityState :=
  Eval vm_compute in
    match outcome_of (register_ alice hunter2) fresh with
    | Returned (Ok value) => value
    | _ => @identity_of platform alice (KeyPair.mk [] [])
    end.

(** The entry it leaves in the store. *)
Definition alice_entry : RegistryEntry.t :=
  Eval vm_compute in
    @entry_of platform (keyPair alice_identity) (@next_salt platform fresh)
      (clock fresh).

(** The node after [alice] has registered through the hook: she is the
    session's identity. *)
Definition logged_in : World :=
  world_after (@UseIdentity.register platform alice hunter2) fresh.

End Scenario.

(** ** The rest of [lib/crypto.ts]: the encoding helpers *)

Module Encoding.
Section WithPlatform.
Context `{pf : Platform}.

(** [fromHex]. *)
Definition fromHex (hex : string) : outcome (list byte) := fromString_base16 hex.

(** [toBase64]. *)
Definition toBase64 (bytes : list byte) : string := toString_base64 bytes.

(** [fromBase64]. *)
Definition fromBase64 (base64 : string) : outcome (list byte) :=
  fromString_base64 base64.

(** [shortKey]: [toHex(publicKey).slice(0, 8)]. *)
Definition shortKey (publicKey : list byte) : string :=
  substring 0 8 (Crypto.toHex publicKey).

End WithPlatform.
End Encoding.

(** ** The rest of [lib/registry.ts]: [init] and [stop]

    The class has a second field, [orbitdb], which the world does not hold;
    the two functions that use it take its value and return the new one. *)

Module RegistryLifecycle.

(** An OrbitDB instance as far as [Registry] uses it: what
    [open('beacon-registry', { type: 'keyvalue' })] resolves to (the contents
    of the store it opens), and what [stop()] does. *)
Record OrbitDBInstance : Type := mkOrbitDBInstance
  { open : outcome (gmap jsstring RegistryEntry.t)
  ; stop_instance : outcome unit }.

(** A run of a method of the class: its outcome, the field [orbitdb], and
    the world (which holds the field [db]). *)
Definition Run (A : Type) : Type :=
  (outcome A * option OrbitDBInstance * World)%type.

(** [Registry.init].  [created] is the outcome of the dynamic import followed
    by [createOrbitDB({ ipfs: helia })]. *)
Definition init (created : outcome OrbitDBInstance)
    (orbitdb : option OrbitDBInstance) (w : World) : Run unit :=
  match created with
  | Thrown e => (Thrown e, orbitdb, w)
  | Returned instance =>
    let orbitdb := Some instance in
    match open instance with
    | Thrown e => (Thrown e, orbitdb, w)
    | Returned store => (Returned tt, orbitdb, set_db (Some store) w)
    end
  end.

(** [Registry.stop]. *)
Definition stop (orbitdb : option OrbitDBInstance) (w : World) : Run unit :=
  match orbitdb with
  | Some instance =>
    match stop_instance instance with
    | Thrown e => (Thrown e, orbitdb, w)
    | Returned _ => (Returned tt, None, set_db None w)
    end
  | None => (Returned tt, orbitdb, w)
  end.

End RegistryLifecycle.

(** ** The rest of [hooks/useIdentity.ts]: the values the hook returns *)

Module UseIdentityView.
Section WithPlatform.
Context `{pf : Platform}.

(** [username: identity?.username ?? null]. *)
Definition username (w : World) : option jsstring :=
  match identity w with
  | Some i => Some (username i)
  | None => None
  end.

(** [publicKeyShort: identity ? shortKey(identity.keyPair.publicKey) : null]. *)
Definition publicKeyShort (w : World) : option string :=
  match identity w with
  | Some i => Some (Encoding.shortKey (KeyPair.publicKey (keyPair i)))
  | None => None
  end.

End WithPlatform.
End UseIdentityView.

(** ** [App.tsx]: the identity modal *)

Module IdentityModal.

Inductive Mode : Type := login | register.

(** The state cells of [IdentityModal], and [showIdentityModal] of [App],
    which [onClose] sets. *)
Record State : Type := mkState
  { mode : Mode
  ; username : jsstring
  ; password : jsstring
  ; error : option string
  ; loading : bool
  ; showIdentityModal : bool }.

Definition setError (e : option string) (s : State) : State :=
  mkState (mode s) (username s) (password s) e (loading s) (showIdentityModal s).
Definition setLoading (l : bool) (s : State) : State :=
  mkState (mode s) (username s) (password s) (error s) l (showIdentityModal s).
Definition setUsername (u : jsstring) (s : State) : State :=
  mkState (mode s) u (password s) (error s) (loading s) (showIdentityModal s).
Definition setPassword (p : jsstring) (s : State) : State :=
  mkState (mode s) (username s) p (error s) (loading s) (showIdentityModal s).
Definition setMode (m : Mode) (s : State) : State :=
  mkState m (username s) (password s) (error s) (loading s) (showIdentityModal s).
(** [onClose] as [App] passes it: [() => setShowIdentityModal(false)]. *)
Definition onClose (s : State) : State :=
  mkState (mode s) (username s) (password s) (error s) (loading s) false.

Section WithPlatform.
Context `{pf : Platform}.

(** [handleSubmit], with [onLogin] and [onRegister] the callbacks of
    [useIdentity], as [App] passes them.  The error of a failure result is
    always a string, so [result.error ?? 'Unknown error'] is that string. *)
Definition handleSubmit (s : State) (w : World) : outcome unit * State * World :=
  let s := setError None s in
  let s := setLoading true s in
  let call :=
    match mode s with
    | login => UseIdentity.login (username s) (password s)
    | register => UseIdentity.register (username s) (password s)
    end in
  match call w with
  | (Thrown e, w') => (Thrown e, s, w')
  | (Returned result, w') =>
    let s := setLoading false s in
    match result with
    | Ok _ =>
      let s := setUsername [] s in
      let s := setPassword [] s in
      (Returned tt, onClose s, w')
    | Err error => (Returned tt, setError (Some error) s, w')
    end
  end.


End WithPlatform.
End IdentityModal.

(** ** More vocabulary *)


(** A call made on behalf of username [u] and password [p]: the store is
    read and written under [u] only, 16 random bytes are drawn, and the
    derivation gets [u], [p] and the UTF-8 bytes of [p]. *)
Definition call_for (u p : jsstring) (e : Event) : Prop :=
  match e with
  | EvDbGet key => key = u
  | EvDbPut key _ => key = u
  | EvGetRandomValues n => n = 16
  | EvDeriveKeyPair u' p' _ => u' = u /\ p' = p
  | EvArgon2id options =>
    opt_password options = TextEncoder_encode p /\
    opt_config options = Crypto.ARGON2_CONFIG
  end.


(** ** More scenarios *)

Module Cases.
Import StandIn Scenario.

Definition bob : jsstring := js "bob".

(** An OrbitDB instance that opens a store holding the entry of [alice]. *)
Definition instance : RegistryLifecycle.OrbitDBInstance :=
  {| RegistryLifecycle.open := Returned {[ alice := alice_entry ]}
   ; RegistryLifecycle.stop_instance := Returned tt |}.

(** The modal, open, with the credentials of [alice] typed in. *)
Definition typed (m : IdentityModal.Mode) (p : jsstring) : IdentityModal.State :=
  {| IdentityModal.mode := m
   ; IdentityModal.username := alice
   ; IdentityModal.password := p
   ; IdentityModal.error := None
   ; IdentityModal.loading := false
   ; IdentityModal.showIdentityModal := true |}.

(** A lookup that reports every name as free and leaves the world alone. *)
Definition blind_lookup (u : jsstring) : M (option RegistryEntry.t) := ret None.

(** A store in which [bob] holds a copy of the entry of [alice]. *)
Definition shared : World :=
  set_db (Some {[ alice := alice_entry; bob := alice_entry ]}) fresh.



End Cases.

(** ** Basic facts about running computations *)

Ltac run := unfold outcome_of, world_after, bind, ret, throw, lift, emit,
  modify, get_world, Date_now in *; simpl in *.

Lemma run_bind {A B} (m : M A) (k : A -> M B) w :
  bind m k w =
  match outcome_of m w with
  | Returned a => k a (world_after m w)
  | Thrown e => (Thrown e, world_after m w)
  end.
Proof. run. destruct (m w) as [[a|e] w']; reflexivity. Qed.

Lemma run_pair {A} (m : M A) w : m w = (outcome_of m w, world_after m w).
Proof. run. destruct (m w); reflexivity. Qed.

(** ** The registry *)

Lemma lookup_run u w :
  Registry.lookup u w =
  match db w with
  | None => (Thrown Registry.not_initialized, w)
  | Some store => (Returned (store !! u), record_call (EvDbGet u) w)
  end.
Proof. unfold Registry.lookup. run. destruct (db w); reflexivity. Qed.

Lemma claim_run u e w :
  Registry.register u e w =
  match db w with
  | None => (Thrown Registry.not_initialized, w)
  | Some store =>
    match store !! u with
    | Some _ => (Returned false, record_call (EvDbGet u) w)
    | None =>
      (Returned true,
       set_db (Some (<[u := e]> store))
         (record_call (EvDbPut u e) (record_call (EvDbGet u) w)))
    end
  end.
Proof.
  unfold Registry.register. run.
  destruct (db w) as [store|]; [|reflexivity]. simpl.
  destruct (store !! u); reflexivity.
Qed.

(** ** The derivation engine *)

Section Derivation.
Context `{pf : Platform}.

(** What [deriveKeyPair] returns, as a function of password and salt. *)
Lemma deriveKeyPair_outcome u p s w :
  outcome_of (Crypto.deriveKeyPair u p s) w =
  match fromString_base64 s with
  | Thrown e => Thrown e
  | Returned saltBytes =>
    match argon2id {| opt_password := TextEncoder_encode p
                    ; opt_salt := saltBytes
                    ; opt_config := Crypto.ARGON2_CONFIG |} with
    | Thrown e => Thrown e
    | Returned hashHex =>
      match fromString_base16 hashHex with
      | Thrown e => Thrown e
      | Returned seed =>
        match generateKeyPairFromSeed seed with
        | Thrown e => Thrown e
        | Returned sk =>
          Returned {| KeyPair.publicKey := publicKey_raw sk
                    ; KeyPair.privateKey := raw sk |}
        end
      end
    end
  end.
Proof.
  unfold Crypto.deriveKeyPair, Crypto.generateEd25519FromSeed. run.
  destruct (fromString_base64 s) as [sb|e]; simpl; [|reflexivity].
  destruct (argon2id _) as [h|e]; simpl; [|reflexivity].
  destruct (fromString_base16 h) as [seed|e]; simpl; [|reflexivity].
  destruct (generateKeyPairFromSeed seed) as [sk|e]; reflexivity.
Qed.

Lemma deriveKeyPair_outcome_indep u1 u2 p s w1 w2 :
  outcome_of (Crypto.deriveKeyPair u1 p s) w1 =
  outcome_of (Crypto.deriveKeyPair u2 p s) w2.
Proof. rewrite !deriveKeyPair_outcome. reflexivity. Qed.

(** The world [deriveKeyPair] leaves: the one it found, with its calls added. *)
Lemma deriveKeyPair_world u p s w :
  world_after (Crypto.deriveKeyPair u p s) w =
  mkWorld (db w) (entropy w) (entropy_used w) (clock w) (identity w)
          (calls w ++ derive_calls u p s).
Proof.
  unfold Crypto.deriveKeyPair, Crypto.generateEd25519FromSeed, derive_calls. run.
  destruct (fromString_base64 s) as [sb|e]; simpl; [|reflexivity].
  unfold record_call; simpl. rewrite <- app_assoc. simpl.
  destruct (argon2id _) as [h|e]; simpl; [|reflexivity].
  destruct (fromString_base16 h) as [seed|e]; simpl; [|reflexivity].
  destruct (generateKeyPairFromSeed seed) as [sk|e]; reflexivity.
Qed.

(** The password enters the derivation through its UTF-8 bytes only. *)
Lemma deriveKeyPair_outcome_bytes u1 u2 p1 p2 s w1 w2 :
  TextEncoder_encode p1 = TextEncoder_encode p2 ->
  outcome_of (Crypto.deriveKeyPair u1 p1 s) w1 =
  outcome_of (Crypto.deriveKeyPair u2 p2 s) w2.
Proof. intros E. rewrite !deriveKeyPair_outcome, E. reflexivity. Qed.

Lemma generateSalt_run w :
  Crypto.generateSalt w =
  (Returned (toString_base64 (map (entropy w) (seq (entropy_used w) 16))),
   set_entropy_used (entropy_used w + 16) (record_call (EvGetRandomValues 16) w)).
Proof. reflexivity. Qed.

End Derivation.

(** ** The identity protocol, step by step *)

Section Protocol.
Context `{pf : Platform}.

Lemma login_run u p lookupFn w :
  Identity.login u p lookupFn w =
  match lookupFn u w with
  | (Thrown e, w1) => (Thrown e, w1)
  | (Returned None, w1) => (Returned (Err Identity.username_not_found), w1)
  | (Returned (Some entry), w1) =>
    let derivation := Crypto.deriveKeyPair u p (RegistryEntry.salt entry) in
    (verdict u entry (outcome_of derivation w1), world_after derivation w1)
  end.
Proof.
  unfold Identity.login. rewrite run_bind, (run_pair (lookupFn u)).
  destruct (outcome_of (lookupFn u) w) as [[entry|]|e]; try reflexivity.
  cbv zeta. rewrite run_bind. unfold verdict.
  destruct (outcome_of _ _) as [kp|e]; [|reflexivity].
  destruct (String.eqb _ _); reflexivity.
Qed.

Lemma register_run u p lookupFn writeFn w :
  Identity.register u p lookupFn writeFn w =
  match lookupFn u w with
  | (Thrown e, w1) => (Thrown e, w1)
  | (Returned (Some _), w1) => (Returned (Err Identity.username_taken), w1)
  | (Returned None, w1) =>
    let derivation := Crypto.deriveKeyPair u p (next_salt w1) in
    let w3 := world_after derivation (after_salt w1) in
    match outcome_of derivation (after_salt w1) with
    | Thrown e => (Thrown e, w3)
    | Returned keyPair =>
      match writeFn u (entry_of keyPair (next_salt w1) (clock w3)) w3 with
      | (Thrown e, w4) => (Thrown e, w4)
      | (Returned false, w4) => (Returned (Err Identity.claim_rejected), w4)
      | (Returned true, w4) => (Returned (Ok (identity_of u keyPair)), w4)
      end
    end
  end.
Proof.
  unfold Identity.register. rewrite run_bind, (run_pair (lookupFn u)).
  destruct (outcome_of (lookupFn u) w) as [[entry|]|e]; try reflexivity.
  rewrite run_bind. unfold outcome_of at 1, world_after at 1.
  rewrite generateSalt_run. cbn [fst snd]. fold (after_salt (world_after (lookupFn u) w)).
  fold (next_salt_bytes (world_after (lookupFn u) w)).
  fold (next_salt (world_after (lookupFn u) w)).
  cbv zeta. rewrite run_bind.
  destruct (outcome_of (Crypto.deriveKeyPair _ _ _) _) as [kp|e]; [|reflexivity].
  rewrite run_bind. unfold outcome_of at 1, world_after at 1 2. unfold Date_now at 1 2.
  cbn [fst snd]. unfold entry_of, identity_of.
  rewrite run_bind. rewrite (run_pair (writeFn _ _)).
  destruct (outcome_of (writeFn _ _) _) as [[|]|e]; reflexivity.
Qed.

End Protocol.

(** ** The protocol over the registry *)

Section OverRegistry.
Context `{pf : Platform}.

(** [register] as [useIdentity] calls it. *)
Lemma register_over_registry u p w :
  Identity.register u p Registry.lookup Registry.register w =
  match db w with
  | None => (Thrown Registry.not_initialized, w)
  | Some store =>
    let w1 := record_call (EvDbGet u) w in
    match store !! u with
    | Some _ => (Returned (Err Identity.username_taken), w1)
    | None =>
      let derivation := Crypto.deriveKeyPair u p (next_salt w) in
      let w3 := world_after derivation (after_salt w1) in
      match outcome_of derivation w with
      | Thrown e => (Thrown e, w3)
      | Returned keyPair =>
        let entry := entry_of keyPair (next_salt w) (clock w) in
        (Returned (Ok (identity_of u keyPair)),
         set_db (Some (<[u := entry]> store))
           (record_call (EvDbPut u entry) (record_call (EvDbGet u) w3)))
      end
    end
  end.
Proof.
  rewrite register_run, lookup_run.
  destruct (db w) as [store|] eqn:Hdb; [|reflexivity].
  destruct (store !! u) as [e0|] eqn:Hu; [reflexivity|].
  cbv zeta.
  change (next_salt (record_call (EvDbGet u) w)) with (next_salt w).
  rewrite (deriveKeyPair_outcome_indep u u p (next_salt w)
             (after_salt (record_call (EvDbGet u) w)) w).
  destruct (outcome_of _ w) as [kp|e]; [|reflexivity].
  rewrite claim_run, deriveKeyPair_world. cbn [db clock after_salt
    set_entropy_used record_call]. rewrite Hdb, Hu. reflexivity.
Qed.

(** [login] as [useIdentity] calls it. *)
Lemma login_over_registry u p w :
  Identity.login u p Registry.lookup w =
  match db w with
  | None => (Thrown Registry.not_initialized, w)
  | Some store =>
    let w1 := record_call (EvDbGet u) w in
    match store !! u with
    | None => (Returned (Err Identity.username_not_found), w1)
    | Some entry =>
      let derivation := Crypto.deriveKeyPair u p (RegistryEntry.salt entry) in
      (verdict u entry (outcome_of derivation w), world_after derivation w1)
    end
  end.
Proof.
  rewrite login_run, lookup_run.
  destruct (db w) as [store|]; [|reflexivity].
  destruct (store !! u) as [entry|]; [|reflexivity].
  cbv zeta.
  rewrite (deriveKeyPair_outcome_indep u u p (RegistryEntry.salt entry)
             (record_call (EvDbGet u) w) w).
  reflexivity.
Qed.

(** What a successful registration has done. *)
Lemma register_success u p w id :
  outcome_of (Identity.register u p Registry.lookup Registry.register) w
    = Returned (Ok id) ->
  exists store keyPair,
    db w = Some store /\ store !! u = None /\
    outcome_of (Crypto.deriveKeyPair u p (next_salt w)) w = Returned keyPair /\
    id = identity_of u keyPair /\
    db (world_after (Identity.register u p Registry.lookup Registry.register) w)
      = Some (<[u := entry_of keyPair (next_salt w) (clock w)]> store).
Proof.
  unfold outcome_of, world_after. rewrite register_over_registry.
  destruct (db w) as [store|]; [|discriminate].
  destruct (store !! u) as [e0|] eqn:Hu; [discriminate|].
  cbv zeta. destruct (outcome_of _ w) as [kp|e] eqn:Hd; [|discriminate].
  cbn [fst snd]. intros [= <-].
  exists store, kp. repeat split; try assumption; reflexivity.
Qed.

(** Every hash a derivation asks for carries the fixed parameters. *)
Lemma derive_calls_fixed u p s : Forall uses_fixed_config (derive_calls u p s).
Proof.
  unfold derive_calls. constructor; [exact I|].
  destruct (fromString_base64 s); repeat constructor.
Qed.

(** So does every hash asked for during a registration or a login. *)
Lemma register_calls_fixed u p w :
  exists evs,
    calls (world_after (Identity.register u p Registry.lookup Registry.register) w)
      = calls w ++ evs /\
    Forall uses_fixed_config evs.
Proof.
  unfold world_after. rewrite register_over_registry.
  destruct (db w) as [store|].
  2:{ exists []. split; [symmetry; apply app_nil_r|constructor]. }
  destruct (store !! u) as [e0|].
  { exists [EvDbGet u]. split; [reflexivity|repeat constructor]. }
  cbv zeta. fold (world_after (Crypto.deriveKeyPair u p (next_salt w))
                    (after_salt (record_call (EvDbGet u) w))).
  rewrite deriveKeyPair_world.
  pose proof (derive_calls_fixed u p (next_salt w)) as Hfixed.
  destruct (outcome_of _ w) as [kp|e]; cbn [snd calls set_db record_call after_salt
                                             set_entropy_used].
  - exists ([EvDbGet u; EvGetRandomValues 16] ++ derive_calls u p (next_salt w)
            ++ [EvDbGet u; EvDbPut u (entry_of kp (next_salt w) (clock w))]).
    split.
    + rewrite <- !app_assoc. reflexivity.
    + repeat (apply Forall_app; split); try assumption; repeat constructor.
  - exists ([EvDbGet u; EvGetRandomValues 16] ++ derive_calls u p (next_salt w)).
    split.
    + rewrite <- !app_assoc. reflexivity.
    + apply Forall_app; split; [repeat constructor|assumption].
Qed.

Lemma login_calls_fixed u p w :
  exists evs,
    calls (world_after (Identity.login u p Registry.lookup) w) = calls w ++ evs /\
    Forall uses_fixed_config evs.
Proof.
  unfold world_after. rewrite login_over_registry.
  destruct (db w) as [store|].
  2:{ exists []. split; [symmetry; apply app_nil_r|constructor]. }
  destruct (store !! u) as [entry|].
  2:{ exists [EvDbGet u]. split; [reflexivity|repeat constructor]. }
  cbv zeta. cbn [snd]. rewrite deriveKeyPair_world. cbn [calls record_call].
  exists ([EvDbGet u] ++ derive_calls u p (RegistryEntry.salt entry)).
  split; [rewrite <- app_assoc; reflexivity|].
  apply Forall_app; split; [repeat constructor|apply derive_calls_fixed].
Qed.

(** Neither protocol function touches the state cell of the hook. *)
Lemma login_keeps_identity u p :
  preserves identity (Identity.login u p Registry.lookup).
Proof.
  intros w. unfold world_after. rewrite login_over_registry.
  destruct (db w) as [store|]; [|reflexivity].
  destruct (store !! u) as [entry|]; [|reflexivity].
  cbv zeta. cbn [snd]. rewrite deriveKeyPair_world. reflexivity.
Qed.

Lemma register_keeps_identity u p :
  preserves identity (Identity.register u p Registry.lookup Registry.register).
Proof.
  intros w. unfold world_after. rewrite register_over_registry.
  destruct (db w) as [store|]; [|reflexivity].
  destruct (store !! u) as [e0|]; [reflexivity|].
  cbv zeta. fold (world_after (Crypto.deriveKeyPair u p (next_salt w))
                    (after_salt (record_call (EvDbGet u) w))).
  rewrite deriveKeyPair_world.
  destruct (outcome_of _ w) as [kp|e]; reflexivity.
Qed.

End OverRegistry.

(** ** Properties of the design document *)

Section Properties.
Context `{pf : Platform}.

Local Abbreviation register_ u p :=
  (Identity.register u p Registry.lookup Registry.register).
Local Abbreviation login_ u p := (Identity.login u p Registry.lookup).

(** C1 (round-trip identity).  When [register u p] succeeds, [login u p] run
    in the world it leaves succeeds as well, and the identity it returns is
    the one [register] returned: same public key in hexadecimal, same key
    pair. *)
Theorem register_then_login_round_trip (u p : jsstring) (w : World) (id : IdentityState) :
  outcome_of (register_ u p) w = Returned (Ok id) ->
  exists id',
    outcome_of (login_ u p) (world_after (register_ u p) w) = Returned (Ok id') /\
    publicKeyHex id' = publicKeyHex id /\
    id' = id.
Proof.
  intros Hreg.
  destruct (register_success u p w id Hreg)
    as (store & kp & Hdb & Hfree & Hderive & -> & Hdb').
  exists (identity_of u kp). split; [|split; reflexivity].
  unfold outcome_of at 1. rewrite login_over_registry, Hdb'.
  rewrite lookup_insert_eq. cbv zeta. cbn [fst RegistryEntry.salt entry_of].
  rewrite (deriveKeyPair_outcome_indep u u p (next_salt w) _ w), Hderive.
  unfold verdict. cbn [RegistryEntry.publicKey]. rewrite String.eqb_refl.
  reflexivity.
Qed.

(** C2 (determinism, username independence).  The outcome of
    [deriveKeyPair] is the same for any two usernames and in any two worlds:
    it is determined by the password and the salt.  In particular two calls
    in a row return the same key pair, byte for byte. *)
Theorem deriveKeyPair_deterministic (u1 u2 p : jsstring) (s : string) (w1 w2 : World) :
  outcome_of (Crypto.deriveKeyPair u1 p s) w1
    = outcome_of (Crypto.deriveKeyPair u2 p s) w2 /\
  outcome_of (Crypto.deriveKeyPair u2 p s)
             (world_after (Crypto.deriveKeyPair u1 p s) w1)
    = outcome_of (Crypto.deriveKeyPair u1 p s) w1.
Proof.
  split.
  - rewrite (deriveKeyPair_outcome u1), (deriveKeyPair_outcome u2). reflexivity.
  - rewrite (deriveKeyPair_outcome u2), (deriveKeyPair_outcome u1). reflexivity.
Qed.

(** C5 (idempotent failure).  After a successful [register u p], a second
    [register u p2] returns the failure "Username already taken" and leaves
    the store as it was: the entry of [u] is still the one the first call
    wrote, with its salt and its public key. *)
Theorem register_twice_fails (u p p2 : jsstring) (w : World) (id : IdentityState) :
  outcome_of (register_ u p) w = Returned (Ok id) ->
  outcome_of (register_ u p2) (world_after (register_ u p) w)
    = Returned (Err Identity.username_taken) /\
  db (world_after (register_ u p2) (world_after (register_ u p) w))
    = db (world_after (register_ u p) w) /\
  exists store entry,
    db (world_after (register_ u p) w) = Some store /\
    store !! u = Some entry /\
    RegistryEntry.publicKey entry = publicKeyHex id /\
    RegistryEntry.salt entry = next_salt w.
Proof.
  intros Hreg.
  destruct (register_success u p w id Hreg)
    as (store & kp & Hdb & Hfree & Hderive & -> & Hdb').
  set (w' := world_after (register_ u p) w) in *.
  unfold outcome_of, world_after.
  rewrite (register_over_registry u p2), Hdb', lookup_insert_eq.
  cbv zeta. cbn [fst snd db record_call]. rewrite Hdb'.
  repeat split.
  eexists _, _. split; [reflexivity|]. rewrite lookup_insert_eq.
  repeat split.
Qed.

(** C7 (unknown username).  On an initialized registry with no entry for
    [u], [login u p] returns the failure "Username not found", which is not
    the "Invalid password" failure, and the only call it has made is the
    lookup: no key derivation has taken place. *)
Theorem login_unknown_username (u p : jsstring) (w : World)
    (store : gmap jsstring RegistryEntry.t) :
  db w = Some store ->
  store !! u = None ->
  outcome_of (login_ u p) w = Returned (Err Identity.username_not_found) /\
  Identity.username_not_found <> Identity.invalid_password /\
  calls (world_after (login_ u p) w) = calls w ++ [EvDbGet u] /\
  filter is_derivation (calls (world_after (login_ u p) w))
    = filter is_derivation (calls w).
Proof.
  intros Hdb Hu. unfold outcome_of, world_after.
  rewrite login_over_registry, Hdb, Hu. cbv zeta. cbn [fst snd record_call calls].
  repeat split.
  - discriminate.
  - rewrite filter_app. cbn. apply app_nil_r.
Qed.

(** C8 (fixed derivation parameters).  The Argon2 parameters are the
    constants 1, 2, 4096 and 32.  [deriveKeyPair], which takes no parameter
    argument, asks for its hash with exactly these, and so does every hash
    asked for during a [register] or a [login].  The salt [generateSalt]
    returns is the base64 text of 16 bytes, the next 16 of the random
    source, and it is the salt of the entry a successful [register] stores. *)
Theorem derivation_parameters_fixed (u p : jsstring) (s : string) (w : World) :
  (parallelism Crypto.ARGON2_CONFIG = 1%N /\
   iterations Crypto.ARGON2_CONFIG = 2%N /\
   memorySize Crypto.ARGON2_CONFIG = 4096%N /\
   hashLength Crypto.ARGON2_CONFIG = 32%N) /\
  (calls (world_after (Crypto.deriveKeyPair u p s) w)
     = calls w ++ derive_calls u p s /\
   Forall uses_fixed_config (derive_calls u p s)) /\
  (exists evs, calls (world_after (register_ u p) w) = calls w ++ evs /\
               Forall uses_fixed_config evs) /\
  (exists evs, calls (world_after (login_ u p) w) = calls w ++ evs /\
               Forall uses_fixed_config evs) /\
  (outcome_of Crypto.generateSalt w
     = Returned (toString_base64 (next_salt_bytes w)) /\
   length (next_salt_bytes w) = 16 /\
   next_salt_bytes w = map (entropy w) (seq (entropy_used w) 16)) /\
  (forall id, outcome_of (register_ u p) w = Returned (Ok id) ->
     exists store entry,
       db (world_after (register_ u p) w) = Some store /\
       store !! u = Some entry /\
       RegistryEntry.salt entry = toString_base64 (next_salt_bytes w)).
Proof.
  split; [repeat split|].
  split; [split; [rewrite deriveKeyPair_world; reflexivity|apply derive_calls_fixed]|].
  split; [apply register_calls_fixed|].
  split; [apply login_calls_fixed|].
  split.
  - split; [reflexivity|]. split; [|reflexivity].
    unfold next_salt_bytes. rewrite length_map, length_seq. reflexivity.
  - intros id Hreg.
    destruct (register_success u p w id Hreg)
      as (store & kp & Hdb & Hfree & Hderive & -> & Hdb').
    eexists _, _. split; [exact Hdb'|]. rewrite lookup_insert_eq.
    split; reflexivity.
Qed.

(** C10 (session state).  The [login] and [register] callbacks of
    [useIdentity] pass on the outcome of the protocol function, with the
    identity dropped from a success; the stored identity becomes the returned
    one on a success and is otherwise what it was, so a failure result leaves
    it untouched; [logout] returns and sets it to [null]. *)
Theorem session_changes_only_on_success (u p : jsstring) (w : World) :
  (outcome_of (UseIdentity.login u p) w =
     match outcome_of (login_ u p) w with
     | Returned (Ok _) => Returned (Ok tt)
     | Returned (Err e) => Returned (Err e)
     | Thrown e => Thrown e
     end /\
   identity (world_after (UseIdentity.login u p) w) =
     match outcome_of (login_ u p) w with
     | Returned (Ok value) => Some value
     | _ => identity w
     end) /\
  (outcome_of (UseIdentity.register u p) w =
     match outcome_of (register_ u p) w with
     | Returned (Ok _) => Returned (Ok tt)
     | Returned (Err e) => Returned (Err e)
     | Thrown e => Thrown e
     end /\
   identity (world_after (UseIdentity.register u p) w) =
     match outcome_of (register_ u p) w with
     | Returned (Ok value) => Some value
     | _ => identity w
     end) /\
  (forall e, outcome_of (UseIdentity.login u p) w = Returned (Err e) ->
             identity (world_after (UseIdentity.login u p) w) = identity w) /\
  (forall e, outcome_of (UseIdentity.register u p) w = Returned (Err e) ->
             identity (world_after (UseIdentity.register u p) w) = identity w) /\
  (outcome_of UseIdentity.logout w = Returned tt /\
   identity (world_after UseIdentity.logout w) = None).
Proof.
  pose proof (login_keeps_identity u p w) as Kl.
  pose proof (register_keeps_identity u p w) as Kr.
  unfold UseIdentity.login, UseIdentity.register, UseIdentity.logout,
    UseIdentity.setIdentity.
  unfold outcome_of, world_after in *. rewrite !run_bind.
  unfold outcome_of, world_after.
  destruct (login_ u p w) as [[[v|e]|e] wl];
  destruct (register_ u p w) as [[[v'|e']|e'] wr];
  cbn [fst snd] in *; repeat split; try assumption; try discriminate;
  intros; assumption.
Qed.

(** C3, as the code has it.  Nothing in [register] or [login] catches an
    error of the lookup function: when the lookup throws, both throw the same
    error, and no failure result is returned.  The registry throws
    "Registry not initialized" while its store is [null], so on such a
    registry [register] and [login], and the callbacks of [useIdentity] that
    call them, all reject with that error. *)
Theorem lookup_failure_propagates (u p : jsstring)
    (lookupFn : jsstring -> M (option RegistryEntry.t))
    (writeFn : jsstring -> RegistryEntry.t -> M bool)
    (w : World) (e : string) :
  outcome_of (lookupFn u) w = Thrown e ->
  (outcome_of (Identity.register u p lookupFn writeFn) w = Thrown e /\
   outcome_of (Identity.login u p lookupFn) w = Thrown e) /\
  (outcome_of (Registry.lookup u) (set_db None w) = Thrown Registry.not_initialized /\
   outcome_of (register_ u p) (set_db None w) = Thrown Registry.not_initialized /\
   outcome_of (login_ u p) (set_db None w) = Thrown Registry.not_initialized /\
   outcome_of (UseIdentity.register u p) (set_db None w) = Thrown Registry.not_initialized /\
   outcome_of (UseIdentity.login u p) (set_db None w) = Thrown Registry.not_initialized).
Proof.
  intros Hthrow. split.
  - unfold outcome_of in *. rewrite register_run, login_run.
    destruct (lookupFn u w) as [[o|e'] w1]; cbn [fst] in *; [discriminate|].
    injection Hthrow as ->. split; reflexivity.
  - unfold UseIdentity.register, UseIdentity.login, outcome_of.
    rewrite !run_bind. unfold outcome_of.
    rewrite register_over_registry, login_over_registry, lookup_run.
    repeat split.
Qed.

(** C4, as the code has it.  When the lookup finds nothing, the derivation
    returns and the claim is rejected, [register] returns the failure
    "Failed to register (username may have been claimed)"; when a lookup
    finds the username, it returns the failure "Username already taken". The
    two are failure results with different errors. *)
Theorem rejected_claim_error (u p : jsstring)
    (lookupFn : jsstring -> M (option RegistryEntry.t))
    (writeFn : jsstring -> RegistryEntry.t -> M bool)
    (w w1 w3 w4 : World) (keyPair : KeyPair.t) :
  lookupFn u w = (Returned None, w1) ->
  Crypto.deriveKeyPair u p (next_salt w1) (after_salt w1) = (Returned keyPair, w3) ->
  writeFn u (entry_of keyPair (next_salt w1) (clock w3)) w3 = (Returned false, w4) ->
  Identity.register u p lookupFn writeFn w
    = (Returned (Err Identity.claim_rejected), w4) /\
  (forall lookupFn' w' existing w1',
     lookupFn' u w' = (Returned (Some existing), w1') ->
     Identity.register u p lookupFn' writeFn w'
       = (Returned (Err Identity.username_taken), w1')) /\
  @Err IdentityState string Identity.claim_rejected <> Err Identity.username_taken.
Proof.
  intros Hlookup Hderive Hclaim. repeat split.
  - rewrite register_run, Hlookup. cbv zeta.
    unfold outcome_of, world_after. rewrite Hderive. cbn [fst snd].
    rewrite Hclaim. reflexivity.
  - intros lookupFn' w' existing w1' H. rewrite register_run, H. reflexivity.
  - discriminate.
Qed.

(** After a registration, any password with the same UTF-8 bytes logs in. *)
Lemma register_then_login_same_bytes (u p p' : jsstring) (w : World) (id : IdentityState) :
  outcome_of (register_ u p) w = Returned (Ok id) ->
  TextEncoder_encode p' = TextEncoder_encode p ->
  outcome_of (login_ u p') (world_after (register_ u p) w) = Returned (Ok id).
Proof.
  intros Hreg Henc.
  destruct (register_success u p w id Hreg)
    as (store & kp & Hdb & Hfree & Hderive & -> & Hdb').
  unfold outcome_of at 1. rewrite login_over_registry, Hdb', lookup_insert_eq.
  cbv zeta. cbn [fst RegistryEntry.salt entry_of].
  rewrite (deriveKeyPair_outcome_bytes u u p' p (next_salt w) _ w Henc), Hderive.
  unfold verdict. cbn [RegistryEntry.publicKey]. rewrite String.eqb_refl.
  reflexivity.
Qed.

(** C6, as the code has it.  For a username with a stored entry, [login]
    derives the key pair from the password and the stored salt.  If the
    derivation throws, [login] throws the same error.  Otherwise it succeeds
    exactly when the hexadecimal text of the derived public key is the stored
    one, and returns the failure "Invalid password" when it is not.  The
    password counts through its UTF-8 bytes only: two passwords with the same
    encoding get the same outcome.  After [register u p0], the stored key is
    the one derived from [p0], so [login u p'] is decided by comparing the
    key derived from [p'] with it. *)
Theorem login_verification (u p : jsstring) (w : World)
    (store : gmap jsstring RegistryEntry.t) (entry : RegistryEntry.t) :
  db w = Some store ->
  store !! u = Some entry ->
  outcome_of (login_ u p) w
    = verdict u entry
        (outcome_of (Crypto.deriveKeyPair u p (RegistryEntry.salt entry)) w) /\
  (forall kp,
     outcome_of (Crypto.deriveKeyPair u p (RegistryEntry.salt entry)) w = Returned kp ->
     (Crypto.toHex (KeyPair.publicKey kp) = RegistryEntry.publicKey entry ->
      outcome_of (login_ u p) w = Returned (Ok (identity_of u kp))) /\
     (Crypto.toHex (KeyPair.publicKey kp) <> RegistryEntry.publicKey entry ->
      outcome_of (login_ u p) w = Returned (Err Identity.invalid_password))) /\
  (forall e,
     outcome_of (Crypto.deriveKeyPair u p (RegistryEntry.salt entry)) w = Thrown e ->
     outcome_of (login_ u p) w = Thrown e) /\
  (forall p',
     TextEncoder_encode p' = TextEncoder_encode p ->
     outcome_of (login_ u p') w = outcome_of (login_ u p) w) /\
  (forall u0 p0 w0 id,
     outcome_of (register_ u0 p0) w0 = Returned (Ok id) ->
     forall p',
       outcome_of (login_ u0 p') (world_after (register_ u0 p0) w0) =
       match outcome_of (Crypto.deriveKeyPair u0 p' (next_salt w0)) w0 with
       | Thrown e => Thrown e
       | Returned kp' =>
         if String.eqb (Crypto.toHex (KeyPair.publicKey kp')) (publicKeyHex id)
         then Returned (Ok (identity_of u0 kp'))
         else Returned (Err Identity.invalid_password)
       end).
Proof.
  intros Hdb Hu.
  assert (Hrun : forall q, outcome_of (login_ u q) w
            = verdict u entry
                (outcome_of (Crypto.deriveKeyPair u q (RegistryEntry.salt entry)) w)).
  { intros q. unfold outcome_of at 1. rewrite login_over_registry, Hdb, Hu.
    reflexivity. }
  split; [apply Hrun|]. split; [|split; [|split]].
  - intros kp Hkp. rewrite Hrun, Hkp. unfold verdict, identity_of. split; intros H.
    + apply String.eqb_eq in H. rewrite H. reflexivity.
    + apply String.eqb_neq in H. rewrite H. reflexivity.
  - intros e He. rewrite Hrun, He. reflexivity.
  - intros p' Henc. rewrite !Hrun.
    rewrite (deriveKeyPair_outcome_bytes u u p' p _ w w Henc). reflexivity.
  - intros u0 p0 w0 id Hreg p'.
    destruct (register_success u0 p0 w0 id Hreg)
      as (store0 & kp0 & Hdb0 & Hfree & Hderive & -> & Hdb').
    unfold outcome_of at 1. rewrite login_over_registry, Hdb', lookup_insert_eq.
    cbv zeta. cbn [fst RegistryEntry.salt entry_of].
    rewrite (deriveKeyPair_outcome_indep u0 u0 p' (next_salt w0) _ w0).
    reflexivity.
Qed.

(** C9, as the code has it.  Neither [register] nor [login] looks at the
    password before deriving: with the empty password, [register] on a free
    username and [login] on a registered one both call [deriveKeyPair] with
    it, and their outcome is what the derivation makes of it; and
    [deriveKeyPair] hands the empty byte sequence to [argon2id] as soon as
    the salt decodes. *)
Theorem empty_password_is_derived (u : jsstring) (w : World)
    (store : gmap jsstring RegistryEntry.t) :
  db w = Some store ->
  (store !! u = None ->
     In (EvDeriveKeyPair u [] (next_salt w)) (calls (world_after (register_ u []) w)) /\
     outcome_of (register_ u []) w =
       match outcome_of (Crypto.deriveKeyPair u [] (next_salt w)) w with
       | Returned kp => Returned (Ok (identity_of u kp))
       | Thrown e => Thrown e
       end) /\
  (forall entry, store !! u = Some entry ->
     In (EvDeriveKeyPair u [] (RegistryEntry.salt entry))
        (calls (world_after (login_ u []) w)) /\
     outcome_of (login_ u []) w =
       verdict u entry
         (outcome_of (Crypto.deriveKeyPair u [] (RegistryEntry.salt entry)) w)) /\
  (forall s saltBytes, fromString_base64 s = Returned saltBytes ->
     In (EvArgon2id {| opt_password := []
                     ; opt_salt := saltBytes
                     ; opt_config := Crypto.ARGON2_CONFIG |})
        (calls (world_after (Crypto.deriveKeyPair u [] s) w))).
Proof.
  intros Hdb. split; [|split].
  - intros Hu. unfold outcome_of at 1, world_after.
    rewrite register_over_registry, Hdb, Hu. cbv zeta.
    fold (world_after (Crypto.deriveKeyPair u [] (next_salt w))
            (after_salt (record_call (EvDbGet u) w))).
    rewrite deriveKeyPair_world.
    destruct (outcome_of _ w) as [kp|e]; cbn [fst snd calls set_db record_call];
      (split; [|reflexivity]); unfold derive_calls;
      rewrite !in_app_iff; cbn; tauto.
  - intros entry Hu. unfold outcome_of at 1, world_after.
    rewrite login_over_registry, Hdb, Hu. cbv zeta. cbn [fst snd].
    fold (world_after (Crypto.deriveKeyPair u [] (RegistryEntry.salt entry))
            (record_call (EvDbGet u) w)).
    rewrite deriveKeyPair_world. cbn [calls]. split; [|reflexivity].
    unfold derive_calls. rewrite in_app_iff. cbn. tauto.
  - intros s sb Hs. rewrite deriveKeyPair_world. cbn [calls].
    unfold derive_calls. rewrite Hs, in_app_iff. cbn. tauto.
Qed.

End Properties.

(** ** Runs on concrete inputs *)

Section Runs.
Import StandIn Scenario.

(** C1 on the stand-in: [alice] registers on the fresh node and logs in. *)
Lemma round_trip_of_alice :
  exists id',
    outcome_of (login_ alice hunter2) (world_after (register_ alice hunter2) fresh)
      = Returned (Ok id') /\
    publicKeyHex id' = publicKeyHex alice_identity /\
    id' = alice_identity.
Proof.
  apply (register_then_login_round_trip (pf := platform) alice hunter2 fresh
           alice_identity).
  vm_compute. reflexivity.
Defined.

(** C5 on the stand-in: [alice] is registered a second time, with another
    password. *)
Lemma second_registration_of_alice :
  outcome_of (register_ alice (js "correct horse"))
             (world_after (register_ alice hunter2) fresh)
    = Returned (Err Identity.username_taken) /\
  db (world_after (register_ alice (js "correct horse"))
        (world_after (register_ alice hunter2) fresh))
    = db (world_after (register_ alice hunter2) fresh) /\
  exists store entry,
    db (world_after (register_ alice hunter2) fresh) = Some store /\
    store !! alice = Some entry /\
    RegistryEntry.publicKey entry = publicKeyHex alice_identity /\
    RegistryEntry.salt entry = @next_salt platform fresh.
Proof.
  apply (register_twice_fails (pf := platform) alice hunter2 (js "correct horse")
           fresh alice_identity).
  vm_compute. reflexivity.
Defined.

(** C7 on the stand-in: [bob] was never registered. *)
Lemma login_of_unknown_bob :
  outcome_of (login_ (js "bob") hunter2) registered
    = Returned (Err Identity.username_not_found) /\
  Identity.username_not_found <> Identity.invalid_password /\
  calls (world_after (login_ (js "bob") hunter2) registered)
    = calls registered ++ [EvDbGet (js "bob")] /\
  filter is_derivation (calls (world_after (login_ (js "bob") hunter2) registered))
    = filter is_derivation (calls registered).
Proof.
  apply (login_unknown_username (pf := platform) (js "bob") hunter2 registered
           {[ alice := alice_entry ]}).
  - vm_compute. reflexivity.
  - vm_compute. reflexivity.
Defined.

(** C3 fails as stated: on a registry that was not initialized, [register]
    and [login] throw; they return no result at all, and so no failure
    result. *)
Lemma uninitialized_registry_throws :
  outcome_of (register_ alice hunter2) uninitialized
    = Thrown "Registry not initialized" /\
  outcome_of (login_ alice hunter2) uninitialized
    = Thrown "Registry not initialized" /\
  (forall r, outcome_of (register_ alice hunter2) uninitialized <> Returned r) /\
  (forall r, outcome_of (login_ alice hunter2) uninitialized <> Returned r).
Proof. repeat split; intros r; vm_compute; discriminate. Qed.

(** C3 as the code has it, on the stand-in: the lookup of the registry on
    the node that was not initialized. *)
Lemma lookup_failure_of_uninitialized :
  (outcome_of (register_ alice hunter2) uninitialized
     = Thrown Registry.not_initialized /\
   outcome_of (login_ alice hunter2) uninitialized
     = Thrown Registry.not_initialized) /\
  (outcome_of (Registry.lookup alice) (set_db None uninitialized)
     = Thrown Registry.not_initialized /\
   outcome_of (register_ alice hunter2) (set_db None uninitialized)
     = Thrown Registry.not_initialized /\
   outcome_of (login_ alice hunter2) (set_db None uninitialized)
     = Thrown Registry.not_initialized /\
   outcome_of (@UseIdentity.register platform alice hunter2) (set_db None uninitialized)
     = Thrown Registry.not_initialized /\
   outcome_of (@UseIdentity.login platform alice hunter2) (set_db None uninitialized)
     = Thrown Registry.not_initialized).
Proof.
  apply (lookup_failure_propagates (pf := platform) alice hunter2
           Registry.lookup Registry.register uninitialized
           Registry.not_initialized).
  vm_compute. reflexivity.
Defined.

(** C4 fails as stated: [alice] registers while a rival's write lands
    between her lookup and her claim.  The failure she gets is not the one a
    registration gets whose lookup finds the name. *)
Lemma lost_race_has_its_own_error :
  outcome_of (@Identity.register platform alice hunter2
                lookup_then_rival Registry.register) fresh
    = Returned (Err "Failed to register (username may have been claimed)") /\
  outcome_of (register_ alice hunter2) registered
    = Returned (Err "Username already taken") /\
  outcome_of (@Identity.register platform alice hunter2
                lookup_then_rival Registry.register) fresh
    <> outcome_of (register_ alice hunter2) registered.
Proof. repeat split; vm_compute; discriminate. Qed.

(** C4 as the code has it, on the stand-in: the same lost race, step by
    step. *)
Lemma rejected_claim_of_alice :
  outcome_of (@Identity.register platform alice hunter2
                lookup_then_rival Registry.register) fresh
    = Returned (Err Identity.claim_rejected).
Proof.
  refine (f_equal fst
            (proj1 (rejected_claim_error (pf := platform) alice hunter2
                      lookup_then_rival Registry.register fresh
                      (world_after (lookup_then_rival alice) fresh)
                      (world_after
                         (@Crypto.deriveKeyPair platform alice hunter2
                            (@next_salt platform fresh))
                         (after_salt (world_after (lookup_then_rival alice) fresh)))
                      (record_call (EvDbGet alice)
                         (world_after
                            (@Crypto.deriveKeyPair platform alice hunter2
                               (@next_salt platform fresh))
                            (after_salt (world_after (lookup_then_rival alice) fresh))))
                      (keyPair alice_identity) _ _ _)));
    vm_compute; reflexivity.
Defined.

(** C6 fails as stated: two different passwords, each an unpaired
    surrogate, have the same UTF-8 bytes, so the second logs in to the
    account registered with the first, on any implementation of the
    libraries; and a login whose derivation throws (here: the empty password)
    throws, it does not return "Invalid password". *)
Lemma wrong_password_is_not_always_rejected :
  lone_high <> lone_low /\
  (exists id,
     outcome_of (register_ alice lone_high) fresh = Returned (Ok id) /\
     outcome_of (login_ alice lone_low) (world_after (register_ alice lone_high) fresh)
       = Returned (Ok id)) /\
  outcome_of (login_ alice lone_low) (world_after (register_ alice lone_high) fresh)
    <> Returned (Err Identity.invalid_password) /\
  (forall (pf : Platform) u w id,
     outcome_of (Identity.register u lone_high Registry.lookup Registry.register) w
       = Returned (Ok id) ->
     outcome_of (Identity.login u lone_low Registry.lookup)
       (world_after (Identity.register u lone_high Registry.lookup Registry.register) w)
       = Returned (Ok id)) /\
  outcome_of (login_ alice []) registered = Thrown "Password must be specified".
Proof.
  split; [discriminate|]. split; [|split; [|split]].
  - eexists. split; vm_compute; reflexivity.
  - vm_compute. discriminate.
  - intros pf u w id H.
    apply (register_then_login_same_bytes u lone_high lone_low w id H).
    reflexivity.
  - vm_compute. reflexivity.
Qed.

(** C6 as the code has it, on the stand-in: a password with other bytes,
    against the entry of [alice]. *)
Lemma wrong_password_of_alice :
  outcome_of (login_ alice (js "hunter3")) registered
    = Returned (Err Identity.invalid_password).
Proof.
  refine (eq_trans
            (proj1 (login_verification (pf := platform) alice (js "hunter3")
                      registered {[ alice := alice_entry ]} alice_entry _ _)) _);
    vm_compute; reflexivity.
Defined.

(** C9 fails as stated: with the empty password, [register] and [login]
    call [deriveKeyPair], which calls [argon2id] with no password bytes. *)
Lemma empty_password_reaches_the_hash :
  In (EvDeriveKeyPair alice [] "AxQlNkdYaXqLnK2+z+DxAg")
     (calls (world_after (register_ alice []) fresh)) /\
  In (EvDeriveKeyPair alice [] "AxQlNkdYaXqLnK2+z+DxAg")
     (calls (world_after (login_ alice []) registered)) /\
  (exists options,
     In (EvArgon2id options) (calls (world_after (register_ alice []) fresh)) /\
     opt_password options = []) /\
  filter is_derivation (calls (world_after (register_ alice []) fresh)) <> [].
Proof.
  split; [|split; [|split]].
  - vm_compute. auto 10.
  - vm_compute. auto 20.
  - eexists. split; [vm_compute; do 3 right; left; reflexivity|reflexivity].
  - vm_compute. discriminate.
Qed.

(** C9 as the code has it, on the stand-in: [alice] registers with the
    empty password on the fresh node. *)
Lemma empty_password_of_alice :
  In (EvDeriveKeyPair alice [] (@next_salt platform fresh))
     (calls (world_after (register_ alice []) fresh)).
Proof.
  refine (proj1 (proj1 (empty_password_is_derived (pf := platform) alice fresh ∅ _) _));
    vm_compute; reflexivity.
Defined.

(** C10 on the stand-in: [alice] is logged in, and a login with a wrong
    password fails; she stays logged in. *)
Lemma failed_login_keeps_alice :
  outcome_of (@UseIdentity.login platform alice (js "hunter3")) logged_in
    = Returned (Err Identity.invalid_password) /\
  identity (world_after (@UseIdentity.login platform alice (js "hunter3")) logged_in)
    = identity logged_in /\
  identity logged_in = Some alice_identity.
Proof.
  assert (H : outcome_of (@UseIdentity.login platform alice (js "hunter3")) logged_in
              = Returned (Err Identity.invalid_password))
    by (vm_compute; reflexivity).
  split; [exact H|]. split; [|vm_compute; reflexivity].
  destruct (session_changes_only_on_success (pf := platform) alice (js "hunter3")
              logged_in) as (_ & _ & Hfail & _).
  exact (Hfail _ H).
Defined.

(** C8 on the stand-in: the salt of the entry of [alice] is the base64 text
    of the first 16 bytes of the random source. *)
Lemma salt_of_alice :
  exists store entry,
    db registered = Some store /\
    store !! alice = Some entry /\
    RegistryEntry.salt entry = base64_encode (next_salt_bytes fresh) /\
    RegistryEntry.salt entry = "AxQlNkdYaXqLnK2+z+DxAg".
Proof.
  destruct (derivation_parameters_fixed (pf := platform) alice hunter2
              "AxQlNkdYaXqLnK2+z+DxAg" fresh)
    as (_ & _ & _ & _ & _ & Hsalt).
  destruct (Hsalt alice_identity) as (store & entry & Hdb & Hentry & Hs).
  { vm_compute. reflexivity. }
  exists store, entry. split; [exact Hdb|]. split; [exact Hentry|].
  split; [exact Hs|]. rewrite Hs. vm_compute. reflexivity.
Defined.
End Runs.

(** ** Further properties: the registry *)

Section RegistryFacts.




(** X3 ([all] and [lookup] agree).  On an initialized registry [all] lists
    each username once, lists a pair exactly when [lookup] returns that entry
    for that username, and changes nothing; an accepted claim makes the list
    one longer and puts the claimed pair in it. *)
Theorem all_lists_the_store (w : World) (store : gmap jsstring RegistryEntry.t) :
  db w = Some store ->
  exists listed,
    outcome_of Registry.all w = Returned listed /\
    world_after Registry.all w = w /\
    NoDup (listed.*1) /\
    (forall u e, (u, e) ∈ listed <->
                 outcome_of (Registry.lookup u) w = Returned (Some e)) /\
    (forall u e, store !! u = None ->
       exists listed',
         outcome_of Registry.all (world_after (Registry.register u e) w)
           = Returned listed' /\
         (u, e) ∈ listed' /\
         length listed' = S (length listed)).
Proof.
  intros Hdb. exists (map_to_list store).
  assert (Hall : forall w0 s0, db w0 = Some s0 ->
            Registry.all w0 = (Returned (map_to_list s0), w0)).
  { intros w0 s0 H. unfold Registry.all. run. rewrite H. reflexivity. }
  unfold outcome_of, world_after. rewrite (Hall w store Hdb). cbn [fst snd].
  repeat split.
  - apply NoDup_fst_map_to_list.
  - intros H. apply elem_of_map_to_list in H.
    rewrite lookup_run, Hdb. cbn. congruence.
  - rewrite lookup_run, Hdb. cbn. intros [= H]. apply elem_of_map_to_list. exact H.
  - intros u e Hu. exists (map_to_list (<[u:=e]> store)).
    rewrite claim_run, Hdb, Hu. cbn [snd].
    set (w1 := set_db _ _).
    rewrite (Hall w1 (<[u:=e]> store) eq_refl). cbn [fst].
    repeat split.
    + apply elem_of_map_to_list, lookup_insert_eq.
    + rewrite !length_map_to_list. apply map_size_insert_None. exact Hu.
Qed.

End RegistryFacts.

(** ** Further properties: the life cycle of the registry *)

Section LifecycleFacts.
Import RegistryLifecycle.

(** X4 ([stop]).  A [stop] whose instance stops sets both fields to [null]:
    from then on [lookup], [register] and [all] throw "Registry not
    initialized", and a second [stop] does nothing.  A [stop] whose instance
    fails to stop throws and leaves both fields as they were, and a [stop]
    on a registry with no instance changes nothing. *)
Theorem stop_closes_the_registry (instance : OrbitDBInstance) (w : World)
    (u : jsstring) (e : RegistryEntry.t) :
  (stop_instance instance = Returned tt ->
     stop (Some instance) w = (Returned tt, None, set_db None w) /\
     outcome_of (Registry.lookup u) (set_db None w)
       = Thrown Registry.not_initialized /\
     outcome_of (Registry.register u e) (set_db None w)
       = Thrown Registry.not_initialized /\
     outcome_of Registry.all (set_db None w) = Thrown Registry.not_initialized /\
     world_after (Registry.register u e) (set_db None w) = set_db None w /\
     stop None (set_db None w) = (Returned tt, None, set_db None w)) /\
  (forall x, stop_instance instance = Thrown x ->
     stop (Some instance) w = (Thrown x, Some instance, w)) /\
  stop None w = (Returned tt, None, w).
Proof.
  split; [|split].
  - intros Hstop. unfold stop. rewrite Hstop.
    unfold outcome_of, world_after. rewrite lookup_run, claim_run.
    repeat split.
  - intros x Hstop. unfold stop. rewrite Hstop. reflexivity.
  - reflexivity.
Qed.

(** X5 ([init]).  When the instance is created and opens its store, [init]
    returns, and the registry then answers lookups from the opened store.
    When the store fails to open, [init] throws with the instance kept but
    the store field untouched, so a registry that was not initialized still
    is not.  When the instance cannot be created, nothing changes. *)
Theorem init_opens_the_store (created : outcome OrbitDBInstance)
    (orbitdb : option OrbitDBInstance) (w : World) (u : jsstring) :
  (forall instance store,
     created = Returned instance -> open instance = Returned store ->
     exists w',
       init created orbitdb w = (Returned tt, Some instance, w') /\
       db w' = Some store /\
       outcome_of (Registry.lookup u) w' = Returned (store !! u) /\
       identity w' = identity w /\ calls w' = calls w) /\
  (forall instance x,
     created = Returned instance -> open instance = Thrown x ->
     init created orbitdb w = (Thrown x, Some instance, w) /\
     (db w = None ->
      outcome_of (Registry.lookup u) w = Thrown Registry.not_initialized)) /\
  (forall x, created = Thrown x -> init created orbitdb w = (Thrown x, orbitdb, w)).
Proof.
  split; [|split].
  - intros instance store -> Hopen. exists (set_db (Some store) w).
    unfold init. rewrite Hopen. unfold outcome_of. rewrite lookup_run.
    repeat split.
  - intros instance x -> Hopen. unfold init. rewrite Hopen.
    split; [reflexivity|]. intros Hdb. unfold outcome_of.
    rewrite lookup_run, Hdb. reflexivity.
  - intros x ->. reflexivity.
Qed.

End LifecycleFacts.

(** ** Further properties: the identity protocol *)

Section ProtocolFacts.
Context `{pf : Platform}.

Local Abbreviation register_ u p :=
  (Identity.register u p Registry.lookup Registry.register).
Local Abbreviation login_ u p := (Identity.login u p Registry.lookup).

(** X6 (what the results can be).  Whatever the lookup and claim functions
    are: an identity returned by [register] or [login] carries the username
    that was asked for and the hexadecimal text of its own public key, and
    [login] returns one only if the lookup returned an entry with that very
    public key; a failure of [register] is "Username already taken" or
    "Failed to register (username may have been claimed)", a failure of
    [login] is "Username not found" or "Invalid password". *)
Theorem results_vocabulary (u p : jsstring)
    (lookupFn : jsstring -> M (option RegistryEntry.t))
    (writeFn : jsstring -> RegistryEntry.t -> M bool) (w : World) :
  (forall id, outcome_of (Identity.register u p lookupFn writeFn) w = Returned (Ok id) ->
     username id = u /\
     publicKeyHex id = Crypto.toHex (KeyPair.publicKey (keyPair id)) /\
     outcome_of (lookupFn u) w = Returned None) /\
  (forall err, outcome_of (Identity.register u p lookupFn writeFn) w = Returned (Err err) ->
     (err = Identity.username_taken /\
      exists existing, outcome_of (lookupFn u) w = Returned (Some existing)) \/
     (err = Identity.claim_rejected /\ outcome_of (lookupFn u) w = Returned None)) /\
  (forall id, outcome_of (Identity.login u p lookupFn) w = Returned (Ok id) ->
     username id = u /\
     publicKeyHex id = Crypto.toHex (KeyPair.publicKey (keyPair id)) /\
     exists entry,
       outcome_of (lookupFn u) w = Returned (Some entry) /\
       RegistryEntry.publicKey entry = publicKeyHex id) /\
  (forall err, outcome_of (Identity.login u p lookupFn) w = Returned (Err err) ->
     (err = Identity.username_not_found /\ outcome_of (lookupFn u) w = Returned None) \/
     (err = Identity.invalid_password /\
      exists entry, outcome_of (lookupFn u) w = Returned (Some entry))).
Proof.
  unfold outcome_of. rewrite register_run, login_run.
  destruct (lookupFn u w) as [[[entry|]|x] w1]; cbn [fst]; cbv zeta.
  - split; [discriminate|]. split; [intros err [= <-]; left; eauto|].
    unfold verdict. destruct (outcome_of _ w1) as [kp|x]; cbn [fst].
    + destruct (String.eqb _ _) eqn:E.
      * split; [|discriminate]. intros id [= <-]. repeat split.
        exists entry. split; [reflexivity|]. apply String.eqb_eq in E.
        symmetry. exact E.
      * split; [discriminate|]. intros err [= <-]. right. eauto.
    + split; discriminate.
  - split; [|split; [|split; [discriminate|intros err [= <-]; left; auto]]].
    + destruct (outcome_of _ (after_salt w1)) as [kp|x]; [|discriminate].
      destruct (writeFn _ _ _) as [[[|]|x] w4]; try discriminate.
      intros id [= <-]. repeat split.
    + destruct (outcome_of _ (after_salt w1)) as [kp|x]; [|discriminate].
      destruct (writeFn _ _ _) as [[[|]|x] w4]; try discriminate.
      intros err [= <-]. right. auto.
  - repeat split; discriminate.
Qed.


(** X8 ([register] writes once, and only on success).  When [register]
    returns an identity, the store has gained exactly one entry, under the
    username, which had none: it holds the identity's public key, the salt
    just generated, no profile and the current time, and every other
    username's entry is as before.  On every other outcome the store is
    unchanged. *)
Theorem register_writes_once (u p : jsstring) (w : World) :
  (forall id, outcome_of (register_ u p) w = Returned (Ok id) ->
     exists store,
       db w = Some store /\ store !! u = None /\
       db (world_after (register_ u p) w)
         = Some (<[u := {| RegistryEntry.publicKey := publicKeyHex id
                         ; RegistryEntry.salt := next_salt w
                         ; RegistryEntry.profileCid := None
                         ; RegistryEntry.createdAt := clock w |}]> store)) /\
  ((forall id, outcome_of (register_ u p) w <> Returned (Ok id)) ->
     db (world_after (register_ u p) w) = db w).
Proof.
  split.
  - intros id Hreg.
    destruct (register_success u p w id Hreg)
      as (store & kp & Hdb & Hfree & Hderive & -> & Hdb').
    exists store. repeat split; assumption.
  - unfold outcome_of, world_after. rewrite register_over_registry.
    destruct (db w) as [store|] eqn:Hdb; [|intros _; exact Hdb].
    destruct (store !! u) as [e0|]; cbv zeta; [intros _; exact Hdb|].
    fold (world_after (Crypto.deriveKeyPair u p (next_salt w))
            (after_salt (record_call (EvDbGet u) w))).
    rewrite deriveKeyPair_world.
    destruct (outcome_of _ w) as [kp|x]; cbn [fst snd]; intros Hnot.
    + exfalso. exact (Hnot _ eq_refl).
    + exact Hdb.
Qed.

(** X9 (a taken username costs nothing).  When the username has an entry,
    [register] returns "Username already taken" after the lookup alone: no
    random bytes are drawn, nothing is derived and nothing is written. *)
Theorem register_taken_stops_early (u p : jsstring) (w : World)
    (store : gmap jsstring RegistryEntry.t) (existing : RegistryEntry.t) :
  db w = Some store ->
  store !! u = Some existing ->
  outcome_of (register_ u p) w = Returned (Err Identity.username_taken) /\
  world_after (register_ u p) w = record_call (EvDbGet u) w /\
  entropy_used (world_after (register_ u p) w) = entropy_used w /\
  calls (world_after (register_ u p) w) = calls w ++ [EvDbGet u].
Proof.
  intros Hdb Hu. unfold outcome_of, world_after.
  rewrite register_over_registry, Hdb, Hu. repeat split.
Qed.


(** X11 (a lookup that misses cannot cause an overwrite).  Take any lookup
    function that does not write to the store, even one that wrongly
    reports the username as free.  With [Registry.register] as the claim
    function, a [register] for a username that has an entry never succeeds
    and leaves the store as it was. *)
Theorem stale_lookup_cannot_overwrite (u p : jsstring)
    (lookupFn : jsstring -> M (option RegistryEntry.t)) (w : World)
    (store : gmap jsstring RegistryEntry.t) (existing : RegistryEntry.t) :
  (forall w0, db (world_after (lookupFn u) w0) = db w0) ->
  db w = Some store ->
  store !! u = Some existing ->
  db (world_after (Identity.register u p lookupFn Registry.register) w) = Some store /\
  (forall id, outcome_of (Identity.register u p lookupFn Registry.register) w
                <> Returned (Ok id)).
Proof.
  intros Hread Hdb Hu. specialize (Hread w). rewrite Hdb in Hread.
  unfold outcome_of, world_after in *. rewrite register_run.
  destruct (lookupFn u w) as [[[entry|]|x] w1]; cbn [fst snd] in *;
    try (split; [exact Hread|discriminate]).
  cbv zeta.
  fold (world_after (Crypto.deriveKeyPair u p (next_salt w1)) (after_salt w1)).
  rewrite deriveKeyPair_world.
  destruct (outcome_of _ (after_salt w1)) as [kp|x]; cbn [fst snd];
    [|split; [exact Hread|discriminate]].
  rewrite claim_run. cbn [db after_salt set_entropy_used record_call].
  rewrite Hread, Hu. cbn [fst snd db record_call].
  split; [reflexivity|discriminate].
Qed.

(** X12 (an entry is not bound to its username).  When two usernames hold
    entries with the same salt and the same public key, a password logs in
    to both or to neither: the two logins have the same outcome, up to the
    username written in the identity. *)
Theorem same_entry_same_login (u1 u2 p : jsstring) (w : World)
    (store : gmap jsstring RegistryEntry.t) (e1 e2 : RegistryEntry.t) :
  db w = Some store ->
  store !! u1 = Some e1 ->
  store !! u2 = Some e2 ->
  RegistryEntry.salt e1 = RegistryEntry.salt e2 ->
  RegistryEntry.publicKey e1 = RegistryEntry.publicKey e2 ->
  (forall id, outcome_of (login_ u1 p) w = Returned (Ok id) ->
     outcome_of (login_ u2 p) w
       = Returned (Ok {| username := u2
                       ; keyPair := keyPair id
                       ; publicKeyHex := publicKeyHex id |})) /\
  (forall err, outcome_of (login_ u1 p) w = Returned (Err err) ->
     outcome_of (login_ u2 p) w = Returned (Err err)) /\
  (forall x, outcome_of (login_ u1 p) w = Thrown x ->
     outcome_of (login_ u2 p) w = Thrown x).
Proof.
  intros Hdb H1 H2 Hsalt Hkey. unfold outcome_of.
  rewrite !login_over_registry, Hdb, H1, H2. cbv zeta. cbn [fst].
  rewrite <- Hsalt.
  rewrite (deriveKeyPair_outcome_indep u2 u1 p (RegistryEntry.salt e1) w w).
  unfold verdict. rewrite <- Hkey.
  destruct (outcome_of _ w) as [kp|x].
  - destruct (String.eqb _ _); repeat split; try discriminate.
    + intros id [= <-]. reflexivity.
    + intros err [= <-]. reflexivity.
  - repeat split; try discriminate. intros x' [= <-]. reflexivity.
Qed.

(** X13 (a salt that does not decode).  When the salt text is not valid
    base64, [deriveKeyPair] throws the decoder's error before any hash is
    asked for, and changes nothing but the record of calls.  A [login]
    against an entry with such a salt therefore throws that error; it does
    not answer "Invalid password". *)
Theorem malformed_salt_stops_derivation (u p : jsstring) (s x : string) (w : World) :
  fromString_base64 s = Thrown x ->
  outcome_of (Crypto.deriveKeyPair u p s) w = Thrown x /\
  calls (world_after (Crypto.deriveKeyPair u p s) w)
    = calls w ++ [EvDeriveKeyPair u p s] /\
  db (world_after (Crypto.deriveKeyPair u p s) w) = db w /\
  entropy_used (world_after (Crypto.deriveKeyPair u p s) w) = entropy_used w /\
  identity (world_after (Crypto.deriveKeyPair u p s) w) = identity w /\
  (forall store entry,
     db w = Some store -> store !! u = Some entry -> RegistryEntry.salt entry = s ->
     outcome_of (login_ u p) w = Thrown x).
Proof.
  intros Hs. rewrite deriveKeyPair_outcome, deriveKeyPair_world, Hs.
  unfold derive_calls. rewrite Hs. repeat split.
  intros store entry Hdb Hu <-. unfold outcome_of.
  rewrite login_over_registry, Hdb, Hu. cbv zeta. cbn [fst].
  rewrite deriveKeyPair_outcome, Hs. reflexivity.
Qed.

(** X14 (what the hash is given at registration).  When the username is
    free and the salt text decodes back to its bytes, the hash [register]
    asks for is over the UTF-8 bytes of the password and the 16 bytes just
    drawn, with the fixed parameters. *)
Theorem registration_hash_input (u p : jsstring) (w : World)
    (store : gmap jsstring RegistryEntry.t) :
  db w = Some store ->
  store !! u = None ->
  fromString_base64 (next_salt w) = Returned (next_salt_bytes w) ->
  In (EvArgon2id {| opt_password := TextEncoder_encode p
                  ; opt_salt := next_salt_bytes w
                  ; opt_config := Crypto.ARGON2_CONFIG |})
     (calls (world_after (register_ u p) w)) /\
  length (next_salt_bytes w) = 16.
Proof.
  intros Hdb Hu Hdecode. split.
  - unfold world_after. rewrite register_over_registry, Hdb, Hu. cbv zeta.
    fold (world_after (Crypto.deriveKeyPair u p (next_salt w))
            (after_salt (record_call (EvDbGet u) w))).
    rewrite deriveKeyPair_world. unfold derive_calls. rewrite Hdecode.
    destruct (outcome_of _ w) as [kp|x]; cbn [snd calls set_db record_call];
      rewrite !in_app_iff; cbn; tauto.
  - unfold next_salt_bytes. rewrite length_map, length_seq. reflexivity.
Qed.

(** The calls of one derivation are made for its username and password. *)
Lemma derive_calls_for u p s : Forall (call_for u p) (derive_calls u p s).
Proof.
  unfold derive_calls. constructor; [split; reflexivity|].
  destruct (fromString_base64 s); repeat constructor.
Qed.

(** The calls of a registration and of a login are made for their own
    username and password. *)
Lemma register_calls_for (u p : jsstring) (w : World) :
  exists evs,
    calls (world_after (register_ u p) w) = calls w ++ evs /\
    Forall (call_for u p) evs.
Proof.
  unfold world_after. rewrite register_over_registry.
  destruct (db w) as [store|].
  2:{ exists []. split; [symmetry; apply app_nil_r|constructor]. }
  destruct (store !! u) as [e0|].
  { exists [EvDbGet u]. split; [reflexivity|repeat constructor]. }
  cbv zeta. fold (world_after (Crypto.deriveKeyPair u p (next_salt w))
                    (after_salt (record_call (EvDbGet u) w))).
  rewrite deriveKeyPair_world.
  pose proof (derive_calls_for u p (next_salt w)) as Hfor.
  destruct (outcome_of _ w) as [kp|x]; cbn [snd calls set_db record_call after_salt
                                             set_entropy_used].
  - exists ([EvDbGet u; EvGetRandomValues 16] ++ derive_calls u p (next_salt w)
            ++ [EvDbGet u; EvDbPut u (entry_of kp (next_salt w) (clock w))]).
    split; [rewrite <- !app_assoc; reflexivity|].
    repeat (apply Forall_app; split); try assumption; repeat constructor.
  - exists ([EvDbGet u; EvGetRandomValues 16] ++ derive_calls u p (next_salt w)).
    split; [rewrite <- !app_assoc; reflexivity|].
    apply Forall_app; split; [repeat constructor|assumption].
Qed.

Lemma login_calls_for (u p : jsstring) (w : World) :
  exists evs,
    calls (world_after (login_ u p) w) = calls w ++ evs /\
    Forall (call_for u p) evs.
Proof.
  unfold world_after. rewrite login_over_registry.
  destruct (db w) as [store|].
  2:{ exists []. split; [symmetry; apply app_nil_r|constructor]. }
  destruct (store !! u) as [entry|].
  2:{ exists [EvDbGet u]. split; [reflexivity|repeat constructor]. }
  cbv zeta. cbn [snd]. rewrite deriveKeyPair_world. cbn [calls record_call].
  exists ([EvDbGet u] ++ derive_calls u p (RegistryEntry.salt entry)).
  split; [rewrite <- app_assoc; reflexivity|].
  apply Forall_app; split; [repeat constructor|apply derive_calls_for].
Qed.

(** X15 (one username at a time).  Every call a [register] or a [login]
    makes is made for its own username and password: the store is read and
    written under that username only, the random source is asked for 16
    bytes at a time, and the derivation receives that username and password,
    the hash the UTF-8 bytes of that password. *)
Theorem calls_concern_one_username (u p : jsstring) (w : World) :
  (exists evs,
     calls (world_after (register_ u p) w) = calls w ++ evs /\
     Forall (call_for u p) evs) /\
  (exists evs,
     calls (world_after (login_ u p) w) = calls w ++ evs /\
     Forall (call_for u p) evs).
Proof. split; [apply register_calls_for|apply login_calls_for]. Qed.

End ProtocolFacts.

(** ** Further properties: the hook and the modal *)

Section SessionFacts.
Context `{pf : Platform}.

Local Abbreviation register_ u p :=
  (Identity.register u p Registry.lookup Registry.register).
Local Abbreviation login_ u p := (Identity.login u p Registry.lookup).

(** The callbacks of the hook, in one step. *)
Lemma hook_login_run u p w :
  UseIdentity.login u p w =
  match login_ u p w with
  | (Returned (Ok value), w') => (Returned (Ok tt), set_identity (Some value) w')
  | (Returned (Err error), w') => (Returned (Err error), w')
  | (Thrown x, w') => (Thrown x, w')
  end.
Proof.
  unfold UseIdentity.login, UseIdentity.setIdentity, bind at 1.
  destruct (login_ u p w) as [[[v|e]|x] w']; reflexivity.
Qed.

Lemma hook_register_run u p w :
  UseIdentity.register u p w =
  match register_ u p w with
  | (Returned (Ok value), w') => (Returned (Ok tt), set_identity (Some value) w')
  | (Returned (Err error), w') => (Returned (Err error), w')
  | (Thrown x, w') => (Thrown x, w')
  end.
Proof.
  unfold UseIdentity.register, UseIdentity.setIdentity, bind at 1.
  destruct (register_ u p w) as [[[v|e]|x] w']; reflexivity.
Qed.

(** A successful callback: the protocol function succeeded, and the world is
    the one it left, with the identity stored. *)
Lemma hook_register_success u p w :
  outcome_of (UseIdentity.register u p) w = Returned (Ok tt) ->
  exists id,
    outcome_of (register_ u p) w = Returned (Ok id) /\
    world_after (UseIdentity.register u p) w
      = set_identity (Some id) (world_after (register_ u p) w).
Proof.
  unfold outcome_of, world_after. rewrite hook_register_run.
  destruct (register_ u p w) as [[[v|e]|x] w']; try discriminate.
  intros _. exists v. split; reflexivity.
Qed.

Lemma hook_login_success u p w :
  outcome_of (UseIdentity.login u p) w = Returned (Ok tt) ->
  exists id,
    outcome_of (login_ u p) w = Returned (Ok id) /\
    world_after (UseIdentity.login u p) w
      = set_identity (Some id) (world_after (login_ u p) w).
Proof.
  unfold outcome_of, world_after. rewrite hook_login_run.
  destruct (login_ u p w) as [[[v|e]|x] w']; try discriminate.
  intros _. exists v. split; reflexivity.
Qed.

(** The outcome of [login] is decided by the store alone. *)
Lemma login_outcome_by_store u p w1 w2 :
  db w1 = db w2 -> outcome_of (login_ u p) w1 = outcome_of (login_ u p) w2.
Proof.
  intros Hdb. unfold outcome_of. rewrite !login_over_registry, Hdb.
  destruct (db w2) as [store|]; [|reflexivity].
  destruct (store !! u) as [entry|]; [|reflexivity].
  cbv zeta. cbn [fst].
  rewrite (deriveKeyPair_outcome_indep u u p _ w1 w2). reflexivity.
Qed.

(** X16 (what the hook shows after signing up).  After a successful
    [register] callback the hook reports an authenticated session under the
    username that was registered, and the short key it shows is the first 8
    characters of the public key stored in the registry under that name.
    After [logout] it reports no session, no username and no key. *)
Theorem hook_shows_the_registered_key (u p : jsstring) (w : World) :
  outcome_of (UseIdentity.register u p) w = Returned (Ok tt) ->
  UseIdentity.isAuthenticated (world_after (UseIdentity.register u p) w) = true /\
  UseIdentityView.username (world_after (UseIdentity.register u p) w) = Some u /\
  (exists store entry,
     db (world_after (UseIdentity.register u p) w) = Some store /\
     store !! u = Some entry /\
     UseIdentityView.publicKeyShort (world_after (UseIdentity.register u p) w)
       = Some (substring 0 8 (RegistryEntry.publicKey entry))) /\
  (UseIdentity.isAuthenticated
     (world_after UseIdentity.logout (world_after (UseIdentity.register u p) w)) = false /\
   UseIdentityView.username
     (world_after UseIdentity.logout (world_after (UseIdentity.register u p) w)) = None /\
   UseIdentityView.publicKeyShort
     (world_after UseIdentity.logout (world_after (UseIdentity.register u p) w)) = None).
Proof.
  intros Hok. destruct (hook_register_success u p w Hok) as (id & Hreg & ->).
  destruct (register_success u p w id Hreg)
    as (store & kp & Hdb & Hfree & Hderive & -> & Hdb').
  split; [reflexivity|]. split; [reflexivity|]. split; [|repeat split].
  eexists _, _. cbn [db set_identity]. split; [exact Hdb'|].
  rewrite lookup_insert_eq. split; reflexivity.
Qed.

(** X17 (the key is recovered from the credentials).  After a successful
    [register] callback and a [logout], which forgets the identity and leaves
    the registry alone, a [login] callback with the same credentials
    succeeds and stores the identity the registration had stored. *)
Theorem logout_then_login_recovers (u p : jsstring) (w : World) :
  outcome_of (UseIdentity.register u p) w = Returned (Ok tt) ->
  identity (world_after UseIdentity.logout
              (world_after (UseIdentity.register u p) w)) = None /\
  db (world_after UseIdentity.logout (world_after (UseIdentity.register u p) w))
    = db (world_after (UseIdentity.register u p) w) /\
  outcome_of (UseIdentity.login u p)
    (world_after UseIdentity.logout (world_after (UseIdentity.register u p) w))
    = Returned (Ok tt) /\
  identity (world_after (UseIdentity.login u p)
              (world_after UseIdentity.logout
                 (world_after (UseIdentity.register u p) w)))
    = identity (world_after (UseIdentity.register u p) w) /\
  exists id, identity (world_after (UseIdentity.register u p) w) = Some id /\
             username id = u.
Proof.
  intros Hok. destruct (hook_register_success u p w Hok) as (id & Hreg & Hw1).
  set (w1 := world_after (UseIdentity.register u p) w) in *.
  set (w2 := world_after UseIdentity.logout w1).
  assert (Hdb2 : db w2 = db (world_after (register_ u p) w)).
  { unfold w2. rewrite Hw1. reflexivity. }
  assert (Hlogin : outcome_of (login_ u p) w2 = Returned (Ok id)).
  { rewrite (login_outcome_by_store u p w2 (world_after (register_ u p) w) Hdb2).
    destruct (register_success u p w id Hreg)
      as (store & kp & Hdb & Hfree & Hderive & -> & Hdb').
    unfold outcome_of at 1. rewrite login_over_registry, Hdb', lookup_insert_eq.
    cbv zeta. cbn [fst RegistryEntry.salt entry_of].
    rewrite (deriveKeyPair_outcome_indep u u p (next_salt w) _ w), Hderive.
    unfold verdict. cbn [RegistryEntry.publicKey]. rewrite String.eqb_refl.
    reflexivity. }
  split; [reflexivity|]. split; [unfold w2; rewrite Hw1; reflexivity|].
  unfold outcome_of, world_after in Hlogin |- *.
  rewrite hook_login_run.
  destruct (login_ u p w2) as [[[v|e]|x] w3]; cbn [fst] in Hlogin; try discriminate.
  injection Hlogin as ->. cbn [fst snd identity set_identity].
  split; [reflexivity|]. fold w1. rewrite Hw1. cbn [identity set_identity].
  split; [reflexivity|]. exists id. split; [reflexivity|].
  destruct (register_success u p w id Hreg) as (? & ? & _ & _ & _ & -> & _).
  reflexivity.
Qed.

End SessionFacts.

Section ModalFacts.
Context `{pf : Platform}.

Local Abbreviation register_ u p :=
  (Identity.register u p Registry.lookup Registry.register).
Local Abbreviation login_ u p := (Identity.login u p Registry.lookup).

(** The callback [handleSubmit] calls: [onLogin] or [onRegister], by mode. *)
Local Abbreviation callback s :=
  (match IdentityModal.mode s with
   | IdentityModal.login =>
     UseIdentity.login (IdentityModal.username s) (IdentityModal.password s)
   | IdentityModal.register =>
     UseIdentity.register (IdentityModal.username s) (IdentityModal.password s)
   end).

(** X18 (what a submission does to the modal).  When the callback succeeds,
    the two fields are emptied, the modal is closed and nothing is loading.
    When it returns a failure, its error is shown, the fields keep what was
    typed, the modal stays as it is and nothing is loading.  When it throws,
    [handleSubmit] throws too, with the modal still marked as loading and no
    error shown; this is what happens on a registry that is not initialized. *)
Theorem handleSubmit_outcomes (s : IdentityModal.State) (w : World) :
  (outcome_of (callback s) w = Returned (Ok tt) ->
     IdentityModal.handleSubmit s w =
     (Returned tt,
      IdentityModal.mkState (IdentityModal.mode s) [] [] None false false,
      world_after (callback s) w)) /\
  (forall e, outcome_of (callback s) w = Returned (Err e) ->
     IdentityModal.handleSubmit s w =
     (Returned tt,
      IdentityModal.mkState (IdentityModal.mode s) (IdentityModal.username s)
        (IdentityModal.password s) (Some e) false (IdentityModal.showIdentityModal s),
      world_after (callback s) w)) /\
  (forall x, outcome_of (callback s) w = Thrown x ->
     IdentityModal.handleSubmit s w =
     (Thrown x,
      IdentityModal.mkState (IdentityModal.mode s) (IdentityModal.username s)
        (IdentityModal.password s) None true (IdentityModal.showIdentityModal s),
      world_after (callback s) w)) /\
  (db w = None ->
     IdentityModal.handleSubmit s w =
     (Thrown Registry.not_initialized,
      IdentityModal.mkState (IdentityModal.mode s) (IdentityModal.username s)
        (IdentityModal.password s) None true (IdentityModal.showIdentityModal s),
      w)).
Proof.
  assert (Hun : db w = None ->
            callback s w = (Thrown Registry.not_initialized, w)).
  { intros Hdb. destruct (IdentityModal.mode s).
    - rewrite hook_login_run, login_over_registry, Hdb. reflexivity.
    - rewrite hook_register_run, register_over_registry, Hdb. reflexivity. }
  unfold IdentityModal.handleSubmit, outcome_of, world_after.
  cbn [IdentityModal.mode IdentityModal.username IdentityModal.password
       IdentityModal.setError IdentityModal.setLoading].
  split; [|split; [|split]].
  - destruct (callback s w) as [[[[]|e]|x] w']; try discriminate. reflexivity.
  - intros e. destruct (callback s w) as [[[[]|e']|x] w']; try discriminate.
    intros [= <-]. reflexivity.
  - intros x. destruct (callback s w) as [[[[]|e']|x'] w']; try discriminate.
    intros [= <-]. reflexivity.
  - intros Hdb. rewrite (Hun Hdb). reflexivity.
Qed.





End ModalFacts.

(** ** Further properties: the encoding helpers *)

Section EncodingFacts.
Import StandIn.

Lemma substring_is_prefix (n : nat) :
  forall s : string,
    (exists rest, s = String.append (substring 0 n s) rest) /\
    String.length (substring 0 n s) <= n.
Proof.
  induction n as [|n IH]; intros [|c s]; cbn.
  - split; [exists ""; reflexivity|lia].
  - split; [eexists; reflexivity|lia].
  - split; [exists ""; reflexivity|lia].
  - destruct (IH s) as [[rest Hrest] Hlen]. split; [|lia].
    exists rest. rewrite Hrest at 1. reflexivity.
Qed.

(** X20 ([shortKey]).  The short key is a prefix of the hexadecimal text of
    the key, of at most 8 characters.  With the lowercase hexadecimal codec, a
    key of four bytes or more has a short key of exactly 8 characters, the
    text of its first four bytes; the rest of the key does not show. *)
Theorem shortKey_is_a_prefix (pf : Platform) (publicKey : list byte) :
  (exists rest,
     Crypto.toHex publicKey = String.append (Encoding.shortKey publicKey) rest) /\
  String.length (Encoding.shortKey publicKey) <= 8 /\
  (4 <= length publicKey ->
     @Encoding.shortKey platform publicKey = hex_encode (take 4 publicKey) /\
     String.length (@Encoding.shortKey platform publicKey) = 8 /\
     forall other, take 4 other = take 4 publicKey -> 4 <= length other ->
       @Encoding.shortKey platform other = @Encoding.shortKey platform publicKey).
Proof.
  assert (Hfour : forall k : list byte, 4 <= length k ->
            @Encoding.shortKey platform k = hex_encode (take 4 k) /\
            String.length (@Encoding.shortKey platform k) = 8).
  { intros [|a [|b [|c [|d rest]]]] H; cbn [length] in H; try lia.
    unfold Encoding.shortKey, Crypto.toHex. cbn [toString_base16 platform].
    unfold hex_encode. cbn [flat_map app firstn string_of_list_ascii substring].
    assert (Hzero : forall t, substring 0 0 t = "") by (intros [|? ?]; reflexivity).
    rewrite Hzero. split; reflexivity. }
  unfold Encoding.shortKey at 1 2.
  destruct (substring_is_prefix 8 (Crypto.toHex publicKey)) as [Hpre Hlen].
  split; [exact Hpre|]. split; [exact Hlen|].
  intros H4. destruct (Hfour publicKey H4) as [Hshort Hlen8].
  split; [exact Hshort|]. split; [exact Hlen8|].
  intros other Htake Hother. destruct (Hfour other Hother) as [-> _].
  rewrite Htake. symmetry. exact Hshort.
Qed.

(** One byte through the hexadecimal codec. *)
Lemma hex_digits_of_byte (b : byte) :
  digit_value hex_alphabet (digit_char hex_alphabet (N.shiftr (Byte.to_N b) 4))
    = Some (N.shiftr (Byte.to_N b) 4) /\
  digit_value hex_alphabet (digit_char hex_alphabet (N.land (Byte.to_N b) 15))
    = Some (N.land (Byte.to_N b) 15) /\
  byte_of_N (N.lor (N.shiftl (N.shiftr (Byte.to_N b) 4) 4) (N.land (Byte.to_N b) 15)) = b.
Proof. destruct b; repeat split. Qed.

Lemma hex_digit_values (bytes : list byte) :
  digit_values hex_alphabet (hex_encode bytes)
    = Some (flat_map (fun b => [N.shiftr (Byte.to_N b) 4; N.land (Byte.to_N b) 15]) bytes).
Proof.
  induction bytes as [|b rest IH]; [reflexivity|].
  destruct (hex_digits_of_byte b) as (Hhi & Hlo & _).
  unfold hex_encode in *. cbn [flat_map app string_of_list_ascii digit_values].
  rewrite Hhi, Hlo, IH. reflexivity.
Qed.

(** X21 (hexadecimal round trip).  With the lowercase hexadecimal codec,
    [fromHex] of [toHex] of any bytes returns those bytes, two characters
    are written per byte, and [toHex] is one-to-one: different keys have
    different texts, so comparing public keys by their hexadecimal text, as
    [login] does, is comparing the keys. *)
Theorem fromHex_toHex (bytes : list byte) :
  @Encoding.fromHex platform (@Crypto.toHex platform bytes) = Returned bytes /\
  String.length (@Crypto.toHex platform bytes) = 2 * length bytes /\
  (forall other, @Crypto.toHex platform other = @Crypto.toHex platform bytes ->
                 other = bytes).
Proof.
  assert (Hround : forall bs, hex_decode (hex_encode bs) = Returned bs).
  { intros bs. unfold hex_decode. rewrite hex_digit_values.
    induction bs as [|b rest IH]; [reflexivity|].
    cbn [flat_map app hex_pairs]. rewrite IH.
    destruct (hex_digits_of_byte b) as (_ & _ & ->). reflexivity. }
  split; [apply Hround|]. split.
  - unfold Crypto.toHex. cbn [toString_base16 platform].
    induction bytes as [|b rest IH]; [reflexivity|].
    unfold hex_encode in *. cbn [flat_map app string_of_list_ascii String.length length].
    rewrite IH. lia.
  - intros other Heq. unfold Crypto.toHex in Heq. cbn [toString_base16 platform] in Heq.
    pose proof (Hround other) as Ho. rewrite Heq, Hround in Ho. congruence.
Qed.

(** Case analysis on a number below a small bound. *)
Ltac below x n :=
  let k := fresh "k" in
  let Hk := fresh "Hk" in
  assert (Hk : exists k, k < n /\ x = N.of_nat k)
    by (exists (N.to_nat x); split; lia);
  destruct Hk as (k & Hk & ->);
  repeat (destruct k as [|k]; [|apply PeanoNat.lt_S_n in Hk]);
  try (exfalso; lia).

Lemma base64_digit (v : N) :
  (v < 64)%N ->
  digit_value base64_alphabet (digit_char base64_alphabet v) = Some v.
Proof. intros Hv. below v 64; reflexivity. Qed.

Lemma base64_digit_values (vs : list N) :
  Forall (fun v => (v < 64)%N) vs ->
  digit_values base64_alphabet
    (string_of_list_ascii (map (digit_char base64_alphabet) vs)) = Some vs.
Proof.
  induction 1 as [|v vs Hv _ IH]; [reflexivity|].
  cbn [map string_of_list_ascii digit_values].
  rewrite (base64_digit v Hv), IH. reflexivity.
Qed.

(** Two bits over four, and four bits over two, packed into one sextet. *)
Lemma sextet_2_4 (x y : N) :
  (x < 4)%N -> (y < 16)%N ->
  (N.lor (N.shiftl x 4) y < 64)%N /\
  N.shiftr (N.lor (N.shiftl x 4) y) 4 = x /\
  N.land (N.lor (N.shiftl x 4) y) 15 = y.
Proof. intros Hx Hy. below x 4; below y 16; vm_compute; repeat split. Qed.

Lemma sextet_4_2 (x y : N) :
  (x < 16)%N -> (y < 4)%N ->
  (N.lor (N.shiftl x 2) y < 64)%N /\
  N.shiftr (N.lor (N.shiftl x 2) y) 2 = x /\
  N.land (N.lor (N.shiftl x 2) y) 3 = y.
Proof. intros Hx Hy. below x 16; below y 4; vm_compute; repeat split. Qed.

(** One byte cut at each of the three places a sextet boundary can fall. *)
Lemma byte_cuts (b : byte) :
  let B := Byte.to_N b in
  ((N.shiftr B 2 < 64)%N /\ (N.land B 3 < 4)%N /\
   byte_of_N (N.lor (N.shiftl (N.shiftr B 2) 2) (N.land B 3)) = b) /\
  ((N.shiftr B 4 < 16)%N /\ (N.land B 15 < 16)%N /\
   byte_of_N (N.lor (N.shiftl (N.shiftr B 4) 4) (N.land B 15)) = b) /\
  ((N.shiftr B 6 < 4)%N /\ (N.land B 63 < 64)%N /\
   byte_of_N (N.lor (N.shiftl (N.shiftr B 6) 6) (N.land B 63)) = b).
Proof. destruct b; vm_compute; repeat split. Qed.

Lemma base64_octets_sextets (n : nat) :
  forall bytes : list byte,
    length bytes <= n ->
    Forall (fun v => (v < 64)%N) (base64_sextets (map Byte.to_N bytes)) /\
    base64_octets (base64_sextets (map Byte.to_N bytes)) = Returned bytes.
Proof.
  induction n as [|n IH]; intros [|a [|b [|c rest]]] Hlen;
    cbn [length] in Hlen; try lia; try (split; [constructor|reflexivity]).
  - (* one byte left *)
    destruct (byte_cuts a) as ((Ha1 & Ha2 & Ha) & _ & _). cbv zeta in *.
    destruct (sextet_2_4 _ 0 Ha2 ltac:(lia)) as (Hq & Hq4 & Hq15).
    rewrite N.lor_0_r in Hq, Hq4, Hq15.
    cbn [map base64_sextets base64_octets]. rewrite Hq15, Hq4, Ha.
    split; [repeat constructor; assumption|reflexivity].
  - (* two bytes left *)
    destruct (byte_cuts a) as ((Ha1 & Ha2 & Ha) & _ & _).
    destruct (byte_cuts b) as (_ & (Hb1 & Hb2 & Hb) & _). cbv zeta in *.
    destruct (sextet_2_4 _ _ Ha2 Hb1) as (Hq & Hq4 & Hq15).
    destruct (sextet_4_2 _ 0 Hb2 ltac:(lia)) as (Hr & Hr2 & Hr3).
    rewrite N.lor_0_r in Hr, Hr2, Hr3.
    cbn [map base64_sextets base64_octets]. rewrite Hr3, Hq4, Hq15, Hr2, Ha, Hb.
    split; [repeat constructor; assumption|reflexivity].
  - (* three bytes and more *)
    destruct (byte_cuts a) as ((Ha1 & Ha2 & Ha) & _ & _).
    destruct (byte_cuts b) as (_ & (Hb1 & Hb2 & Hb) & _).
    destruct (byte_cuts c) as (_ & _ & (Hc1 & Hc2 & Hc)). cbv zeta in *.
    destruct (sextet_2_4 _ _ Ha2 Hb1) as (Hq & Hq4 & Hq15).
    destruct (sextet_4_2 _ _ Hb2 Hc1) as (Hr & Hr2 & Hr3).
    destruct (IH rest ltac:(lia)) as [Hbound Hrest].
    cbn [map base64_sextets app base64_octets].
    rewrite Hrest, Hq4, Hq15, Hr2, Hr3, Ha, Hb, Hc.
    split; [repeat constructor; assumption|reflexivity].
Qed.

(** X22 (base64 round trip).  With the unpadded base64 codec, [fromBase64]
    of [toBase64] of any bytes returns those bytes.  So the salt text that
    [generateSalt] returns always decodes, to the 16 bytes it was made from. *)
Theorem fromBase64_toBase64 (bytes : list byte) (w : World) :
  @Encoding.fromBase64 platform (@Encoding.toBase64 platform bytes) = Returned bytes /\
  (forall other, @Encoding.toBase64 platform other = @Encoding.toBase64 platform bytes ->
                 other = bytes) /\
  (exists salt,
     outcome_of (@Crypto.generateSalt platform) w = Returned salt /\
     @Encoding.fromBase64 platform salt = Returned (next_salt_bytes w) /\
     length (next_salt_bytes w) = 16).
Proof.
  assert (Hround : forall bs, base64_decode (base64_encode bs) = Returned bs).
  { intros bs. unfold base64_decode, base64_encode.
    destruct (base64_octets_sextets (length bs) bs (le_n _)) as [Hbound Hoct].
    rewrite (base64_digit_values _ Hbound). exact Hoct. }
  split; [apply Hround|]. split.
  - intros other Heq. unfold Encoding.toBase64 in Heq.
    cbn [toString_base64 platform] in Heq.
    pose proof (Hround other) as Ho. rewrite Heq, Hround in Ho. congruence.
  - exists (base64_encode (next_salt_bytes w)). split; [reflexivity|].
    split; [apply Hround|].
    unfold next_salt_bytes. rewrite length_map, length_seq. reflexivity.
Qed.

End EncodingFacts.

(** ** Further runs on concrete inputs *)

Section MoreRuns.
Import StandIn Scenario Cases.



(** X3 on the stand-in: the list after [alice] has registered. *)
Lemma alice_is_listed :
  exists listed,
    outcome_of Registry.all registered = Returned listed /\
    (alice, alice_entry) ∈ listed.
Proof.
  destruct (all_lists_the_store registered {[ alice := alice_entry ]})
    as (listed & Hout & _ & _ & Hiff & _).
  { vm_compute. reflexivity. }
  exists listed. split; [exact Hout|]. apply Hiff. vm_compute. reflexivity.
Defined.

(** X4 on the stand-in: the registry of [alice] is stopped. *)
Lemma stopped_registry_throws :
  outcome_of (Registry.lookup alice) (set_db None registered)
    = Thrown Registry.not_initialized /\
  RegistryLifecycle.stop None (set_db None registered)
    = (Returned tt, None, set_db None registered).
Proof.
  destruct (stop_closes_the_registry instance registered alice alice_entry)
    as (Hstop & _ & _).
  destruct (Hstop eq_refl) as (_ & Hlookup & _ & _ & _ & Hagain).
  split; [exact Hlookup|exact Hagain].
Defined.

(** X5 on the stand-in: a fresh node opens the store that holds [alice]. *)
Lemma opened_store_is_served :
  exists w',
    RegistryLifecycle.init (Returned instance) None uninitialized
      = (Returned tt, Some instance, w') /\
    outcome_of (Registry.lookup alice) w' = Returned (Some alice_entry).
Proof.
  destruct (init_opens_the_store (Returned instance) None uninitialized alice)
    as (Hinit & _ & _).
  destruct (Hinit instance {[ alice := alice_entry ]} eq_refl eq_refl)
    as (w' & Hrun & _ & Hlookup & _).
  exists w'. split; [exact Hrun|]. rewrite Hlookup. vm_compute. reflexivity.
Defined.

(** X9 on the stand-in: [alice] is taken. *)
Lemma taken_alice_stops_early :
  outcome_of (register_ alice (js "other")) registered
    = Returned (Err Identity.username_taken) /\
  entropy_used (world_after (register_ alice (js "other")) registered)
    = entropy_used registered.
Proof.
  destruct (register_taken_stops_early (pf := platform) alice (js "other")
              registered {[ alice := alice_entry ]} alice_entry)
    as (Hout & _ & Hused & _).
  - vm_compute. reflexivity.
  - vm_compute. reflexivity.
  - split; [exact Hout|exact Hused].
Defined.


(** X11 on the stand-in: a lookup that sees nothing, on the store that
    holds [alice]. *)
Lemma blind_lookup_cannot_overwrite_alice :
  db (world_after (@Identity.register platform alice (js "other")
                     blind_lookup Registry.register) registered)
    = Some {[ alice := alice_entry ]} /\
  (forall id, outcome_of (@Identity.register platform alice (js "other")
                            blind_lookup Registry.register) registered
              <> Returned (Ok id)).
Proof.
  apply (stale_lookup_cannot_overwrite (pf := platform) alice (js "other")
           blind_lookup registered {[ alice := alice_entry ]} alice_entry).
  - intros w0. reflexivity.
  - vm_compute. reflexivity.
  - vm_compute. reflexivity.
Defined.

(** X12 on the stand-in: [bob] holds a copy of the entry of [alice], and
    her password opens his account. *)
Lemma password_of_alice_opens_the_copy :
  outcome_of (login_ bob hunter2) shared
    = Returned (Ok {| username := bob
                    ; keyPair := keyPair alice_identity
                    ; publicKeyHex := publicKeyHex alice_identity |}).
Proof.
  destruct (same_entry_same_login (pf := platform) alice bob hunter2 shared
              {[ alice := alice_entry; bob := alice_entry ]} alice_entry alice_entry)
    as (Hok & _ & _).
  - vm_compute. reflexivity.
  - vm_compute. reflexivity.
  - vm_compute. reflexivity.
  - reflexivity.
  - reflexivity.
  - apply Hok. vm_compute. reflexivity.
Defined.

(** X13 on the stand-in: a salt text with characters outside the alphabet. *)
Lemma derivation_with_a_bad_salt :
  outcome_of (@Crypto.deriveKeyPair platform alice hunter2 "not base64!") fresh
    = Thrown "Non-base64 character" /\
  calls (world_after (@Crypto.deriveKeyPair platform alice hunter2 "not base64!") fresh)
    = calls fresh ++ [EvDeriveKeyPair alice hunter2 "not base64!"].
Proof.
  destruct (malformed_salt_stops_derivation (pf := platform) alice hunter2
              "not base64!" "Non-base64 character" fresh)
    as (Hout & Hcalls & _).
  - vm_compute. reflexivity.
  - split; [exact Hout|exact Hcalls].
Defined.

(** X14 on the stand-in: the hash asked for when [alice] registers. *)
Lemma hash_input_of_alice :
  In (EvArgon2id {| opt_password := TextEncoder_encode hunter2
                  ; opt_salt := next_salt_bytes fresh
                  ; opt_config := Crypto.ARGON2_CONFIG |})
     (calls (world_after (register_ alice hunter2) fresh)) /\
  length (next_salt_bytes fresh) = 16.
Proof.
  apply (registration_hash_input (pf := platform) alice hunter2 fresh ∅).
  - reflexivity.
  - reflexivity.
  - vm_compute. reflexivity.
Defined.

(** X16 on the stand-in: what the hook shows once [alice] has signed up. *)
Lemma hook_shows_alice :
  UseIdentity.isAuthenticated logged_in = true /\
  UseIdentityView.username logged_in = Some alice /\
  @UseIdentityView.publicKeyShort platform logged_in = Some "d0594bd4".
Proof.
  destruct (hook_shows_the_registered_key (pf := platform) alice hunter2 fresh)
    as (Hauth & Hname & _ & _).
  - vm_compute. reflexivity.
  - split; [exact Hauth|]. split; [exact Hname|]. vm_compute. reflexivity.
Defined.

(** X17 on the stand-in: [alice] signs up, logs out and logs in again. *)
Lemma alice_comes_back :
  outcome_of (@UseIdentity.login platform alice hunter2)
    (world_after (@UseIdentity.logout) logged_in) = Returned (Ok tt) /\
  identity (world_after (@UseIdentity.login platform alice hunter2)
              (world_after (@UseIdentity.logout) logged_in))
    = identity logged_in.
Proof.
  destruct (logout_then_login_recovers (pf := platform) alice hunter2 fresh)
    as (_ & _ & Hout & Hid & _).
  - vm_compute. reflexivity.
  - split; [exact Hout|exact Hid].
Defined.

(** X18 on the stand-in: [alice] is registered and a wrong password is
    submitted; and a submission on the node that was not initialized. *)
Lemma wrong_password_in_the_modal :
  @IdentityModal.handleSubmit platform
    (typed IdentityModal.login (js "hunter3")) registered
  = (Returned tt,
     IdentityModal.mkState IdentityModal.login alice (js "hunter3")
       (Some Identity.invalid_password) false true,
     world_after (@UseIdentity.login platform alice (js "hunter3")) registered) /\
  @IdentityModal.handleSubmit platform
    (typed IdentityModal.login hunter2) uninitialized
  = (Thrown Registry.not_initialized,
     IdentityModal.mkState IdentityModal.login alice hunter2 None true true,
     uninitialized).
Proof.
  destruct (handleSubmit_outcomes (pf := platform)
              (typed IdentityModal.login (js "hunter3")) registered)
    as (_ & Hfail & _ & _).
  destruct (handleSubmit_outcomes (pf := platform)
              (typed IdentityModal.login hunter2) uninitialized)
    as (_ & _ & _ & Hun).
  split.
  - apply Hfail. vm_compute. reflexivity.
  - apply Hun. reflexivity.
Defined.

End MoreRuns.
